(** * Data-Marketplace canister: a shallow embedding of
      [src/dfinity_js_backend/src/index.ts] and the properties of its
      validation, storage and query operations.

    The file has two parts.  Part I embeds the program: the ECMAScript
    built-ins the canister calls (module [JS]), the identifier generator of
    the [uuid] package together with the canister's replacement of
    [crypto.getRandomValues] (module [Uuid]), and the canister itself
    (records, validators, the two stable maps and every exported method).
    Part II states and proves the properties. *)

From Stdlib Require Import NArith ZArith List Bool Lia String Ascii DecimalString.
From stdpp Require Import gmap list sorting.

Local Open Scope N_scope.

(** JavaScript strings are sequences of UTF-16 code units.  Candid [text]
    is decoded by Azle into such a string. *)
Abbreviation text := (list N).

(* ================================================================== *)
(** * Part I.  The program *)
(* ================================================================== *)

(** ** ECMAScript built-ins used by the canister *)
Module JS.

(** A string literal of the source: the code units of its ASCII characters. *)
Definition lit (s : string) : text :=
  List.map N_of_ascii (list_ascii_of_string s).

(** The double-quote character, for template literals that contain it. *)
Definition dquote : text := [34].

(** Case conversion is the engine's (Unicode Default Case Conversion).  The
    canister only relies on it through [toLowerCase] (search) and through
    the [i] flag of its regular expression, which canonicalizes one code
    unit at a time with [toUpperCase].  On the ASCII range upper-casing is
    fixed by Unicode: [a]..[z] go to [A]..[Z], everything else stays. *)
Definition asciiUpper (c : N) : N :=
  if (97 <=? c) && (c <=? 122) then c - 32 else c.

Definition asciiLower (c : N) : N :=
  if (65 <=? c) && (c <=? 90) then c + 32 else c.

Class Unicode := {
  toLowerCase : text -> text;
  toUpperCase : text -> text;
  toUpperCase_ascii : forall c, c < 128 -> toUpperCase [c] = [asciiUpper c]
}.

(** The case conversion restricted to ASCII letters: an instance on which
    the definitions below can be evaluated. *)
Definition AsciiCase : Unicode :=
  {| toLowerCase := List.map asciiLower;
     toUpperCase := List.map asciiUpper;
     toUpperCase_ascii := fun c _ => eq_refl |}.

(** Case conversion of ASCII and of the basic Greek letters, with the
    context rule of Unicode lower-casing that these letters meet: a capital
    sigma that ends a word (a cased letter before it, none after it,
    case-ignorable characters apart) becomes the final small sigma. *)
Definition isAsciiLetter (c : N) : bool :=
  ((65 <=? c) && (c <=? 90)) || ((97 <=? c) && (c <=? 122)).

Definition isGreekCapital (c : N) : bool :=
  (913 <=? c) && (c <=? 937) && negb (c =? 930).

Definition isGreekSmall (c : N) : bool := (945 <=? c) && (c <=? 969).

Definition isCased (c : N) : bool :=
  isAsciiLetter c || isGreekCapital c || isGreekSmall c.

(** Apostrophe, full stop, colon, circumflex and grave accent. *)
Definition isCaseIgnorable (c : N) : bool :=
  (c =? 39) || (c =? 46) || (c =? 58) || (c =? 94) || (c =? 96).

Fixpoint casedFollows (s : text) : bool :=
  match s with
  | [] => false
  | c :: s' => if isCaseIgnorable c then casedFollows s' else isCased c
  end.

Fixpoint greekLowerFrom (casedBefore : bool) (s : text) : text :=
  match s with
  | [] => []
  | c :: s' =>
      let lower :=
        if c =? 931
        then (if casedBefore && negb (casedFollows s') then 962 else 963)
        else if isGreekCapital c then c + 32 else asciiLower c in
      let before := if isCaseIgnorable c then casedBefore else isCased c in
      lower :: greekLowerFrom before s'
  end.

Definition greekUpper (c : N) : N :=
  if c =? 962 then 931
  else if isGreekSmall c then c - 32 else asciiUpper c.

Lemma greekUpper_ascii (c : N) : c < 128 -> List.map greekUpper [c] = [asciiUpper c].
Proof.
  intros Hc. cbn [List.map]. unfold greekUpper, isGreekSmall.
  destruct (N.eqb_spec c 962) as [-> | _]; [discriminate Hc|].
  destruct (N.leb_spec 945 c) as [Hge | _]; [|reflexivity].
  exfalso. apply (N.lt_irrefl c).
  eapply N.lt_le_trans; [exact Hc|].
  eapply N.le_trans; [|exact Hge]. discriminate.
Qed.

Definition GreekCase : Unicode :=
  {| toLowerCase := greekLowerFrom false;
     toUpperCase := List.map greekUpper;
     toUpperCase_ascii := greekUpper_ascii |}.

(** [WhiteSpace] and [LineTerminator] code points (all in the BMP). *)
Definition isWhiteSpace (c : N) : bool :=
  (c =? 9) || (c =? 10) || (c =? 11) || (c =? 12) || (c =? 13) || (c =? 32)
  || (c =? 160) || (c =? 5760) || ((8192 <=? c) && (c <=? 8202))
  || (c =? 8232) || (c =? 8233) || (c =? 8239) || (c =? 8287)
  || (c =? 12288) || (c =? 65279).

Fixpoint trimStart (s : text) : text :=
  match s with
  | [] => []
  | c :: s' => if isWhiteSpace c then trimStart s' else s
  end.

Definition trimEnd (s : text) : text := rev (trimStart (rev s)).

(** [String.prototype.trim] *)
Definition trim (s : text) : text := trimEnd (trimStart s).

(** [s.startsWith(sub)] at position 0 *)
Fixpoint startsWith (s sub : text) {struct sub} : bool :=
  match sub, s with
  | [], _ => true
  | _ :: _, [] => false
  | x :: sub', c :: s' => (c =? x) && startsWith s' sub'
  end.

(** [String.prototype.includes]: some index of [s] at which [sub] starts. *)
Fixpoint includes (s sub : text) : bool :=
  startsWith s sub ||
  match s with
  | [] => false
  | _ :: s' => includes s' sub
  end.

(** [Array.prototype.join] *)
Fixpoint join (sep : text) (l : list text) : text :=
  match l with
  | [] => []
  | x :: l' =>
      match l' with
      | [] => x
      | _ :: _ => x ++ sep ++ join sep l'
      end
  end.

(** [Array.prototype.toString], used when an array is interpolated. *)
Definition Array_toString (l : list text) : text := join (lit ",") l.

(** [BigInt.prototype.toString]: decimal digits. *)
Definition BigInt_toString (n : N) : text :=
  lit (NilEmpty.string_of_uint (N.to_uint n)).

(** [Number(b)] for a non-negative BigInt [b]: the nearest double, ties to
    even.  The result is an integer, kept here as a [Z].  (A double
    overflows to Infinity only from 2^1024 on; sums of two [nat64] values
    stay below 2^65.) *)
Definition Number (b : N) : Z :=
  let bits := N.size b in
  if bits <=? 53 then Z.of_N b
  else
    let e := bits - 53 in
    let q := N.shiftr b e in
    let r := b mod 2 ^ e in
    let half := 2 ^ (e - 1) in
    let q' := if (half <? r) || ((r =? half) && N.odd q) then q + 1 else q in
    Z.of_N (N.shiftl q' e).

(** [Array.prototype.slice(start, end)] on integral arguments: negative
    indices count from the end, both ends are clamped to the length. *)
Definition slice {A : Type} (l : list A) (start end_ : Z) : list A :=
  let len := Z.of_nat (length l) in
  let k := if (start <? 0)%Z then Z.max (len + start) 0 else Z.min start len in
  let final := if (end_ <? 0)%Z then Z.max (len + end_) 0 else Z.min end_ len in
  let count := Z.max (final - k) 0 in
  take (Z.to_nat count) (drop (Z.to_nat k) l).

(** *** Regular expressions

    The fragment of ECMAScript patterns the canister uses: assertions
    [^], [$] and [\b], a literal character, a character class, and an
    atom repeated an exact number of times.  Every atom consumes exactly
    one code unit and every quantifier is exact, so at a given start
    position a pattern has at most one way to match and the backtracking
    matcher of the standard reduces to the left-to-right one below.

    A position in the input is kept as the code units before it (nearest
    first) and the code units after it. *)

Inductive Atom :=
| PatternCharacter (c : N)
| CharacterClass (ranges : list (N * N)).

Inductive Term :=
| AssertStart                       (* ^ *)
| AssertEnd                         (* $ *)
| AssertWordBoundary                (* \b *)
| AtomOnce (a : Atom)
| AtomTimes (a : Atom) (n : nat).   (* a{n} *)

Record RegExp := {
  pattern : list Term;
  ignoreCase : bool;                (* flag i *)
  global : bool                     (* flag g *)
}.

Section RegExpMatcher.
Context `{Unicode}.

(** [Canonicalize(ch)] without the [u] flag. *)
Definition Canonicalize (ignore : bool) (ch : N) : N :=
  if ignore then
    match toUpperCase [ch] with
    | [cu] => if (128 <=? ch) && (cu <? 128) then ch else cu
    | _ => ch
    end
  else ch.

(** The code units a class denotes. *)
Definition rangeMembers (r : N * N) : list N :=
  List.map (fun i => fst r + N.of_nat i) (seq 0 (N.to_nat (snd r + 1 - fst r))).

Definition atomMembers (a : Atom) : list N :=
  match a with
  | PatternCharacter c => [c]
  | CharacterClass ranges => flat_map rangeMembers ranges
  end.

(** [CharacterSetMatcher]: some member of the set has the canonical form
    of the input character. *)
Definition matchAtom (ignore : bool) (a : Atom) (ch : N) : bool :=
  existsb (fun m => Canonicalize ignore m =? Canonicalize ignore ch)
          (atomMembers a).

(** [IsWordChar]: [A-Za-z0-9_]; false beyond either end of the input. *)
Definition isWordCodeUnit (c : N) : bool :=
  ((48 <=? c) && (c <=? 57)) || ((65 <=? c) && (c <=? 90))
  || ((97 <=? c) && (c <=? 122)) || (c =? 95).

Definition IsWordChar (side : text) : bool :=
  match side with
  | [] => false
  | c :: _ => isWordCodeUnit c
  end.

Fixpoint matchTimes (ignore : bool) (a : Atom) (n : nat) (before after : text)
  : option (text * text) :=
  match n with
  | O => Some (before, after)
  | S n' =>
      match after with
      | [] => None
      | c :: after' =>
          if matchAtom ignore a c
          then matchTimes ignore a n' (c :: before) after'
          else None
      end
  end.

Definition matchTerm (ignore : bool) (t : Term) (before after : text)
  : option (text * text) :=
  match t with
  | AssertStart => match before with [] => Some (before, after) | _ => None end
  | AssertEnd => match after with [] => Some (before, after) | _ => None end
  | AssertWordBoundary =>
      if xorb (IsWordChar before) (IsWordChar after)
      then Some (before, after) else None
  | AtomOnce a => matchTimes ignore a 1 before after
  | AtomTimes a n => matchTimes ignore a n before after
  end.

Fixpoint matchTerms (ignore : bool) (ts : list Term) (before after : text)
  : option (text * text) :=
  match ts with
  | [] => Some (before, after)
  | t :: ts' =>
      match matchTerm ignore t before after with
      | Some (b, a) => matchTerms ignore ts' b a
      | None => None
      end
  end.

(** [RegExpBuiltinExec] for a regular expression that is not sticky: try
    the pattern at [lastIndex], then at every later index up to the end. *)
Fixpoint execFrom (re : RegExp) (before after : text) : bool :=
  match matchTerms (ignoreCase re) (pattern re) before after with
  | Some _ => true
  | None =>
      match after with
      | [] => false
      | c :: after' => execFrom re (c :: before) after'
      end
  end.

(** [RegExp.prototype.test] on a freshly created object ([lastIndex] is 0). *)
Definition test (re : RegExp) (input : text) : bool := execFrom re [] input.

End RegExpMatcher.

End JS.

(** ** The [uuid] package and the canister's random source *)
Module Uuid.

(** The canister's replacement of [crypto.getRandomValues]: a fresh
    [Uint8Array] of 32 elements, element [i] assigned
    [Math.floor(Math.random() * 256)].  [random i] is the value of that
    expression at iteration [i]; storing into a [Uint8Array] reduces it
    modulo 256. *)
Definition getRandomValues (random : nat -> N) : list N :=
  List.map (fun i => random i mod 256) (seq 0 32).

(** [arr[i]] on a typed array that is long enough. *)
Definition at_ (arr : list N) (i : nat) : N := nth i arr 0.

Definition hexDigit (d : N) : N := if d <? 10 then 48 + d else 87 + d.

(** [byteToHex[b]], that is [(b + 0x100).toString(16).slice(1)]. *)
Definition byteToHex (b : N) : text := [hexDigit (b / 16); hexDigit (b mod 16)].

Definition hyphen : text := [45].

(** [unsafeStringify(arr)] *)
Definition unsafeStringify (arr : list N) : text :=
  byteToHex (at_ arr 0) ++ byteToHex (at_ arr 1) ++
  byteToHex (at_ arr 2) ++ byteToHex (at_ arr 3) ++ hyphen ++
  byteToHex (at_ arr 4) ++ byteToHex (at_ arr 5) ++ hyphen ++
  byteToHex (at_ arr 6) ++ byteToHex (at_ arr 7) ++ hyphen ++
  byteToHex (at_ arr 8) ++ byteToHex (at_ arr 9) ++ hyphen ++
  byteToHex (at_ arr 10) ++ byteToHex (at_ arr 11) ++
  byteToHex (at_ arr 12) ++ byteToHex (at_ arr 13) ++
  byteToHex (at_ arr 14) ++ byteToHex (at_ arr 15).

(** The version and variant bits set by [v4]:
    [rnds[6] = (rnds[6] & 0x0f) | 0x40; rnds[8] = (rnds[8] & 0x3f) | 0x80]. *)
Definition setVersion (rnds : list N) : list N :=
  let r6 := <[6%nat := N.lor (N.land (at_ rnds 6) 15) 64]> rnds in
  <[8%nat := N.lor (N.land (at_ r6 8) 63) 128]> r6.

(** [uuidv4()]: no options, so the bytes come from [rng()], which calls
    [crypto.getRandomValues]. *)
Definition v4 (random : nat -> N) : text :=
  unsafeStringify (setVersion (getRandomValues random)).

End Uuid.

(** ** The canister *)

(** A principal is represented by its textual form: [Principal.toText] and
    [Principal.fromText] are inverse to each other, and the canister only
    ever looks at a principal through [toString()]. *)
Module Principal.
Record t := fromText { toText : text }.
Definition toString (p : t) : text := toText p.
End Principal.

Module DataItem.
Record t := mk {
  id : text;
  title : text;
  description : text;
  price : N;
  seller : Principal.t;
  attachmentURL : text;
  dataFormat : text;
  status : text;
  quality : text;
  rating : N
}.
End DataItem.

Module Purchaser.
Record t := mk {
  id : text;
  owner : Principal.t;
  name : text;
  price : N;
  message : text;
  purchasedItem : list text
}.
End Purchaser.

Module PurchaserPayload.
Record t := mk {
  name : text;
  price : N;
  message : text
}.
(** [Object.keys(payload)] of a decoded record: its field names. *)
Definition keys (_ : t) : list text :=
  [JS.lit "name"; JS.lit "price"; JS.lit "message"].
End PurchaserPayload.

Module DataItemPayload.
Record t := mk {
  title : text;
  description : text;
  price : N;
  attachmentURL : text;
  dataFormat : text;
  status : text;
  quality : text;
  rating : N
}.
Definition keys (_ : t) : list text :=
  [JS.lit "title"; JS.lit "description"; JS.lit "price";
   JS.lit "attachmentURL"; JS.lit "dataFormat"; JS.lit "status";
   JS.lit "quality"; JS.lit "rating"].
End DataItemPayload.

Inductive Message :=
| NotFound (t : text)
| InvalidPayload (t : text)
| PaymentFailed (t : text)
| PaymentCompleted (t : text)
| AuthenticationFailed (t : text).

Inductive Result (T E : Type) :=
| Ok (v : T)
| Err (e : E).
Arguments Ok {T E} v.
Arguments Err {T E} e.

(** [StableBTreeMap]: a map from keys to values; [get] and [values] hand
    out copies decoded from stable memory, so a value obtained from the map
    shares nothing with the stored one.  The map is a B-tree: [values]
    lists the stored values by ascending key.  Azle compares keys by
    their encoded bytes; every key the canister inserts is a generated
    identifier, 36 ASCII characters long, and on such keys that order is
    the one of [key_leb]: code unit by code unit, the first difference
    deciding. *)
Module StableBTreeMap.
Definition get {V : Type} (m : gmap text V) (k : text) : option V := m !! k.
Definition insert {V : Type} (m : gmap text V) (k : text) (v : V) : gmap text V :=
  <[k := v]> m.
Definition remove {V : Type} (m : gmap text V) (k : text) : gmap text V :=
  delete k m.

Fixpoint key_leb (a b : text) : bool :=
  match a, b with
  | [], _ => true
  | _ :: _, [] => false
  | x :: a', y :: b' =>
      if x <? y then true else if y <? x then false else key_leb a' b'
  end.

(** The entries of the tree are ordered by their keys. *)
Definition entry_le {V : Type} : relation (text * V) :=
  fun e1 e2 => key_leb e1.1 e2.1 = true.

#[global] Instance entry_le_dec {V : Type} : RelDecision (@entry_le V) :=
  fun e1 e2 => decide (key_leb e1.1 e2.1 = true).

Definition entries {V : Type} (m : gmap text V) : list (text * V) :=
  merge_sort entry_le (map_to_list m).

Definition values {V : Type} (m : gmap text V) : list V := (entries m).*2.
End StableBTreeMap.

(** The canister's state: [DataItemsStorage] (memory id 0) and
    [purchasersStorage] (memory id 1). *)
Record State := mkState {
  DataItemsStorage : gmap text DataItem.t;
  purchasersStorage : gmap text Purchaser.t
}.

Definition initState : State :=
  {| DataItemsStorage := ∅; purchasersStorage := ∅ |}.

Definition setDataItems (st : State) (m : gmap text DataItem.t) : State :=
  {| DataItemsStorage := m; purchasersStorage := purchasersStorage st |}.

Definition setPurchasers (st : State) (m : gmap text Purchaser.t) : State :=
  {| DataItemsStorage := DataItemsStorage st; purchasersStorage := m |}.

(** [str.trim().length == 0] *)
Definition isInvalidString (str : text) : bool :=
  (length (JS.trim str) =? 0)%nat.

(** The pattern of [isValidUuid]:
    [/^[0-9a-fA-F]{8}\b-[0-9a-fA-F]{4}\b-[0-9a-fA-F]{4}\b-[0-9a-fA-F]{4}\b-[0-9a-fA-F]{12}$/gi] *)
Definition hexClass : JS.Atom := JS.CharacterClass [(48, 57); (97, 102); (65, 70)].
Definition hyphenChar : JS.Atom := JS.PatternCharacter 45.

Definition regexExp : JS.RegExp :=
  {| JS.pattern :=
       [ JS.AssertStart;
         JS.AtomTimes hexClass 8; JS.AssertWordBoundary; JS.AtomOnce hyphenChar;
         JS.AtomTimes hexClass 4; JS.AssertWordBoundary; JS.AtomOnce hyphenChar;
         JS.AtomTimes hexClass 4; JS.AssertWordBoundary; JS.AtomOnce hyphenChar;
         JS.AtomTimes hexClass 4; JS.AssertWordBoundary; JS.AtomOnce hyphenChar;
         JS.AtomTimes hexClass 12;
         JS.AssertEnd ];
     JS.ignoreCase := true;
     JS.global := true |}.

Definition emptyError (field : string) (value : text) : text :=
  JS.lit field ++ JS.lit "='" ++ value ++ JS.lit "' cannot be empty.".

Definition priceError (price : N) : text :=
  JS.lit "price='" ++ JS.BigInt_toString price ++ JS.lit "' must be greater than zero.".

(** [errors.push(e)] when [cond] holds. *)
Definition pushIf (cond : bool) (e : text) (errors : list text) : list text :=
  if cond then errors ++ [e] else errors.

Definition validateDataItemPayload (payload : DataItemPayload.t) : list text :=
  let errors := [] in
  let errors := pushIf (isInvalidString (DataItemPayload.description payload))
                  (emptyError "description" (DataItemPayload.description payload)) errors in
  let errors := pushIf (isInvalidString (DataItemPayload.quality payload))
                  (emptyError "quality" (DataItemPayload.quality payload)) errors in
  let errors := pushIf (isInvalidString (DataItemPayload.title payload))
                  (emptyError "title" (DataItemPayload.title payload)) errors in
  let errors := pushIf (isInvalidString (DataItemPayload.attachmentURL payload))
                  (emptyError "attachmentURL" (DataItemPayload.attachmentURL payload)) errors in
  let errors := pushIf (DataItemPayload.price payload =? 0)
                  (priceError (DataItemPayload.price payload)) errors in
  errors.

Definition validatePurchaserPayload (payload : PurchaserPayload.t) : list text :=
  let errors := [] in
  let errors := pushIf (isInvalidString (PurchaserPayload.name payload))
                  (emptyError "name" (PurchaserPayload.name payload)) errors in
  let errors := pushIf (isInvalidString (PurchaserPayload.message payload))
                  (emptyError "message" (PurchaserPayload.message payload)) errors in
  let errors := pushIf (PurchaserPayload.price payload =? 0)
                  (priceError (PurchaserPayload.price payload)) errors in
  errors.

(** The messages built by template literals. *)
Definition badIdMessage (label : string) (id : text) : text :=
  JS.lit label ++ JS.lit "=" ++ JS.dquote ++ id ++ JS.dquote ++
  JS.lit " is not in the valid uuid format.".

Definition invalidPayloadMessage (errors : list text) : text :=
  JS.lit "Invalid payload. Errors=[" ++ JS.Array_toString errors ++ JS.lit "]".

Definition dataItemNotFoundOnDelete (id : text) : text :=
  JS.lit "cannot delete the DataItem: DataItem with id=" ++ id ++ JS.lit " not found".

Definition purchaserNotFoundOnDelete (id : text) : text :=
  JS.lit "cannot delete the Purchaser: Purchaser with id=" ++ id ++ JS.lit " not found".

(** [typeof payload !== "object" || Object.keys(payload).length === 0]:
    a decoded Candid record is an object. *)
Definition noKeys (keys : list text) : bool := (length keys =? 0)%nat.

(** [{ id: uuidv4(), seller: ic.caller(), ...payload }] *)
Definition newDataItem (id : text) (caller : Principal.t) (payload : DataItemPayload.t)
  : DataItem.t :=
  {| DataItem.id := id;
     DataItem.seller := caller;
     DataItem.title := DataItemPayload.title payload;
     DataItem.description := DataItemPayload.description payload;
     DataItem.price := DataItemPayload.price payload;
     DataItem.attachmentURL := DataItemPayload.attachmentURL payload;
     DataItem.dataFormat := DataItemPayload.dataFormat payload;
     DataItem.status := DataItemPayload.status payload;
     DataItem.quality := DataItemPayload.quality payload;
     DataItem.rating := DataItemPayload.rating payload |}.

(** [{ id: uuidv4(), owner: ic.caller(), ...payload, purchasedItem: [] }] *)
Definition newPurchaser (id : text) (caller : Principal.t) (payload : PurchaserPayload.t)
  : Purchaser.t :=
  {| Purchaser.id := id;
     Purchaser.owner := caller;
     Purchaser.name := PurchaserPayload.name payload;
     Purchaser.price := PurchaserPayload.price payload;
     Purchaser.message := PurchaserPayload.message payload;
     Purchaser.purchasedItem := [] |}.

(** [{ ...data, ...payload }] *)
Definition mergeDataItem (data : DataItem.t) (payload : DataItemPayload.t) : DataItem.t :=
  {| DataItem.id := DataItem.id data;
     DataItem.seller := DataItem.seller data;
     DataItem.title := DataItemPayload.title payload;
     DataItem.description := DataItemPayload.description payload;
     DataItem.price := DataItemPayload.price payload;
     DataItem.attachmentURL := DataItemPayload.attachmentURL payload;
     DataItem.dataFormat := DataItemPayload.dataFormat payload;
     DataItem.status := DataItemPayload.status payload;
     DataItem.quality := DataItemPayload.quality payload;
     DataItem.rating := DataItemPayload.rating payload |}.

(** [{ ...purchaser, ...payload }] *)
Definition mergePurchaser (purchaser : Purchaser.t) (payload : PurchaserPayload.t)
  : Purchaser.t :=
  {| Purchaser.id := Purchaser.id purchaser;
     Purchaser.owner := Purchaser.owner purchaser;
     Purchaser.name := PurchaserPayload.name payload;
     Purchaser.price := PurchaserPayload.price payload;
     Purchaser.message := PurchaserPayload.message payload;
     Purchaser.purchasedItem := Purchaser.purchasedItem purchaser |}.

(** [purchaser.purchasedItem.push(itemId)] on the decoded copy. *)
Definition pushPurchasedItem (purchaser : Purchaser.t) (itemId : text) : Purchaser.t :=
  {| Purchaser.id := Purchaser.id purchaser;
     Purchaser.owner := Purchaser.owner purchaser;
     Purchaser.name := Purchaser.name purchaser;
     Purchaser.price := Purchaser.price purchaser;
     Purchaser.message := Purchaser.message purchaser;
     Purchaser.purchasedItem := Purchaser.purchasedItem purchaser ++ [itemId] |}.

(** [a.toString() !== b.toString()] on strings *)
Definition text_neq (a b : text) : bool := negb (bool_decide (a = b)).

Section Canister.
Context `{JS.Unicode}.

Definition isValidUuid (id : text) : bool := JS.test regexExp id.

(** *** Queries *)

Definition getDataItems (st : State) : list DataItem.t :=
  StableBTreeMap.values (DataItemsStorage st).

Definition getPurchasers (st : State) : list Purchaser.t :=
  StableBTreeMap.values (purchasersStorage st).

Definition getDataItem (id : text) (st : State) : Result DataItem.t text :=
  if negb (isValidUuid id) then Err (badIdMessage "Id" id)
  else
    match StableBTreeMap.get (DataItemsStorage st) id with
    | None => Err (JS.lit "Data Item not found")
    | Some data => Ok data
    end.

Definition getPurchaser (id : text) (st : State) : Result Purchaser.t text :=
  if negb (isValidUuid id) then Err (badIdMessage "Id" id)
  else
    match StableBTreeMap.get (purchasersStorage st) id with
    | None => Err (JS.lit "Purchaser not found")
    | Some purchaser => Ok purchaser
    end.

Definition titleOrDescriptionMatches (query : text) (datum : DataItem.t) : bool :=
  JS.includes (JS.toLowerCase (DataItem.title datum)) (JS.toLowerCase query)
  || JS.includes (JS.toLowerCase (DataItem.description datum)) (JS.toLowerCase query).

Definition searchDataItem (query : text) (st : State) : list DataItem.t :=
  let datas := StableBTreeMap.values (DataItemsStorage st) in
  List.filter (titleOrDescriptionMatches query) datas.

Definition dataFormatMatches (query : text) (datum : DataItem.t) : bool :=
  JS.includes (JS.toLowerCase (DataItem.dataFormat datum)) (JS.toLowerCase query).

Definition filterDataItem (query : text) (st : State) : list DataItem.t :=
  let datas := StableBTreeMap.values (DataItemsStorage st) in
  List.filter (dataFormatMatches query) datas.

Definition getInitialDataItem (st : State) : list DataItem.t :=
  let datas := StableBTreeMap.values (DataItemsStorage st) in
  JS.slice datas 0 2.

Definition getMoreDataItems (start limit : N) (st : State) : list DataItem.t :=
  let datas := StableBTreeMap.values (DataItemsStorage st) in
  JS.slice datas (JS.Number start) (JS.Number (start + limit)).

(** *** Updates

    Every update runs on behalf of [caller], the value of [ic.caller()],
    and returns its result together with the state it leaves.  The two
    methods that create a record also read the random source. *)

Definition addDataItem (caller : Principal.t) (random : nat -> N)
    (payload : DataItemPayload.t) (st : State)
  : Result DataItem.t Message * State :=
  if noKeys (DataItemPayload.keys payload)
  then (Err (NotFound (JS.lit "invalid payload")), st)
  else
    let validatePayloadErrors := validateDataItemPayload payload in
    if negb (length validatePayloadErrors =? 0)%nat
    then (Err (InvalidPayload (invalidPayloadMessage validatePayloadErrors)), st)
    else
      let data := newDataItem (Uuid.v4 random) caller payload in
      (Ok data,
       setDataItems st
         (StableBTreeMap.insert (DataItemsStorage st) (DataItem.id data) data)).

Definition addPurchaser (caller : Principal.t) (random : nat -> N)
    (payload : PurchaserPayload.t) (st : State)
  : Result Purchaser.t Message * State :=
  if noKeys (PurchaserPayload.keys payload)
  then (Err (NotFound (JS.lit "invalid payoad")), st)
  else
    let validatePayloadErrors := validatePurchaserPayload payload in
    if negb (length validatePayloadErrors =? 0)%nat
    then (Err (InvalidPayload (invalidPayloadMessage validatePayloadErrors)), st)
    else
      let purchaser := newPurchaser (Uuid.v4 random) caller payload in
      (Ok purchaser,
       setPurchasers st
         (StableBTreeMap.insert (purchasersStorage st) (Purchaser.id purchaser) purchaser)).

Definition updateDataItem (caller : Principal.t) (id : text)
    (payload : DataItemPayload.t) (st : State)
  : Result DataItem.t Message * State :=
  if noKeys (DataItemPayload.keys payload)
  then (Err (NotFound (JS.lit "invalid payoad")), st)
  else if negb (isValidUuid id)
  then (Err (InvalidPayload (badIdMessage "Id" id)), st)
  else
    let validatePayloadErrors := validateDataItemPayload payload in
    if negb (length validatePayloadErrors =? 0)%nat
    then (Err (InvalidPayload (invalidPayloadMessage validatePayloadErrors)), st)
    else
      match StableBTreeMap.get (DataItemsStorage st) id with
      | None => (Err (NotFound (JS.lit "Data not found")), st)
      | Some data =>
          if text_neq (Principal.toString (DataItem.seller data))
                      (Principal.toString caller)
          then (Err (AuthenticationFailed (JS.lit "Caller is not the seller of the item.")), st)
          else
            let updatedData := mergeDataItem data payload in
            (Ok updatedData,
             setDataItems st
               (StableBTreeMap.insert (DataItemsStorage st) id updatedData))
      end.

Definition updatePurchaser (caller : Principal.t) (id : text)
    (payload : PurchaserPayload.t) (st : State)
  : Result Purchaser.t Message * State :=
  if noKeys (PurchaserPayload.keys payload)
  then (Err (NotFound (JS.lit "invalid payoad")), st)
  else if negb (isValidUuid id)
  then (Err (InvalidPayload (badIdMessage "Id" id)), st)
  else
    let validatePayloadErrors := validatePurchaserPayload payload in
    if negb (length validatePayloadErrors =? 0)%nat
    then (Err (InvalidPayload (invalidPayloadMessage validatePayloadErrors)), st)
    else
      match StableBTreeMap.get (purchasersStorage st) id with
      | None => (Err (NotFound (JS.lit "Purchaser not found")), st)
      | Some purchaser =>
          if text_neq (Principal.toString (Purchaser.owner purchaser))
                      (Principal.toString caller)
          then (Err (AuthenticationFailed (JS.lit "Caller is not the purchaser.")), st)
          else
            let updatedPurchaser := mergePurchaser purchaser payload in
            (Ok updatedPurchaser,
             setPurchasers st
               (StableBTreeMap.insert (purchasersStorage st) id updatedPurchaser))
      end.

Definition deleteDataItem (caller : Principal.t) (id : text) (st : State)
  : Result text Message * State :=
  if negb (isValidUuid id)
  then (Err (InvalidPayload (badIdMessage "Id" id)), st)
  else
    match StableBTreeMap.get (DataItemsStorage st) id with
    | None => (Err (NotFound (dataItemNotFoundOnDelete id)), st)
    | Some dataItem =>
        if text_neq (Principal.toString (DataItem.seller dataItem))
                    (Principal.toString caller)
        then (Err (AuthenticationFailed (JS.lit "Caller is not the seller of the item.")), st)
        else
          (Ok (DataItem.id dataItem),
           setDataItems st (StableBTreeMap.remove (DataItemsStorage st) id))
    end.

Definition deletePurchaser (caller : Principal.t) (id : text) (st : State)
  : Result text Message * State :=
  if negb (isValidUuid id)
  then (Err (InvalidPayload (badIdMessage "Id" id)), st)
  else
    match StableBTreeMap.get (purchasersStorage st) id with
    | None => (Err (NotFound (purchaserNotFoundOnDelete id)), st)
    | Some purchaser =>
        if text_neq (Principal.toString (Purchaser.owner purchaser))
                    (Principal.toString caller)
        then (Err (AuthenticationFailed (JS.lit "Caller is not the purchaser.")), st)
        else
          (Ok (Purchaser.id purchaser),
           setPurchasers st (StableBTreeMap.remove (purchasersStorage st) id))
    end.

Definition addPurchasedItem (caller : Principal.t) (purchaserId itemId : text)
    (st : State)
  : Result text Message * State :=
  if negb (isValidUuid purchaserId)
  then (Err (InvalidPayload (badIdMessage "purchaserId" purchaserId)), st)
  else if negb (isValidUuid itemId)
  then (Err (InvalidPayload (badIdMessage "itemId" itemId)), st)
  else
    match StableBTreeMap.get (purchasersStorage st) purchaserId with
    | None => (Err (NotFound (JS.lit "Purchaser not found")), st)
    | Some purchaser =>
        if text_neq (Principal.toString (Purchaser.owner purchaser))
                    (Principal.toString caller)
        then (Err (AuthenticationFailed (JS.lit "Caller is not the purchaser.")), st)
        else
          let purchaser := pushPurchasedItem purchaser itemId in
          (Ok (JS.lit "Item added to Purchaser"),
           setPurchasers st
             (StableBTreeMap.insert (purchasersStorage st) purchaserId purchaser))
    end.

(** *** The canister as a transition system

    One update call, with everything it reads from its environment. *)
Inductive Call :=
| CallAddDataItem (random : nat -> N) (payload : DataItemPayload.t)
| CallAddPurchaser (random : nat -> N) (payload : PurchaserPayload.t)
| CallUpdateDataItem (id : text) (payload : DataItemPayload.t)
| CallUpdatePurchaser (id : text) (payload : PurchaserPayload.t)
| CallDeleteDataItem (id : text)
| CallDeletePurchaser (id : text)
| CallAddPurchasedItem (purchaserId itemId : text).

Definition step (caller : Principal.t) (c : Call) (st : State) : State :=
  match c with
  | CallAddDataItem random payload => snd (addDataItem caller random payload st)
  | CallAddPurchaser random payload => snd (addPurchaser caller random payload st)
  | CallUpdateDataItem id payload => snd (updateDataItem caller id payload st)
  | CallUpdatePurchaser id payload => snd (updatePurchaser caller id payload st)
  | CallDeleteDataItem id => snd (deleteDataItem caller id st)
  | CallDeletePurchaser id => snd (deletePurchaser caller id st)
  | CallAddPurchasedItem purchaserId itemId =>
      snd (addPurchasedItem caller purchaserId itemId st)
  end.

(** The states the canister can be in: the empty one after deployment, and
    whatever an update call by any caller makes of a reachable state. *)
Inductive reachable : State -> Prop :=
| reachable_init : reachable initState
| reachable_step caller c st : reachable st -> reachable (step caller c st).

End Canister.

(** ** Vocabulary of the specification

    The notions the specification uses to describe the program, written
    from its words; Part II relates them to the definitions above. *)

(** A hexadecimal digit, in either case. *)
Definition isHexDigit (c : N) : bool :=
  ((48 <=? c) && (c <=? 57)) || ((65 <=? c) && (c <=? 70))
  || ((97 <=? c) && (c <=? 102)).

(** A group of [n] hexadecimal digits. *)
Definition hexGroup (n : nat) (g : text) : Prop :=
  length g = n /\ Forall (fun c => isHexDigit c = true) g.

(** The canonical identifier format: groups of 8, 4, 4, 4 and 12
    hexadecimal digits separated by hyphens. *)
Definition canonicalIdFormat (id : text) : Prop :=
  exists g1 g2 g3 g4 g5,
    hexGroup 8 g1 /\ hexGroup 4 g2 /\ hexGroup 4 g3 /\
    hexGroup 4 g4 /\ hexGroup 12 g5 /\
    id = g1 ++ Uuid.hyphen ++ g2 ++ Uuid.hyphen ++ g3 ++ Uuid.hyphen ++
         g4 ++ Uuid.hyphen ++ g5.

(** The error kinds of the specification, as a caller can read them off an
    error value.  A [Message] is a Candid variant and carries its kind as
    the variant tag.  The two read-only lookups declare their error as
    [text]: such an error is a bare string and carries no tag. *)
Inductive ErrorKind :=
| KNotFound | KInvalidPayload | KPaymentFailed | KPaymentCompleted
| KAuthenticationFailed.

Class Tagged (E : Type) := errorKind : E -> option ErrorKind.

#[global] Instance Message_Tagged : Tagged Message :=
  fun m =>
    Some match m with
         | NotFound _ => KNotFound
         | InvalidPayload _ => KInvalidPayload
         | PaymentFailed _ => KPaymentFailed
         | PaymentCompleted _ => KPaymentCompleted
         | AuthenticationFailed _ => KAuthenticationFailed
         end.

#[global] Instance text_Tagged : Tagged text := fun _ => None.

Definition resultKind {T E : Type} `{Tagged E} (r : Result T E) : option ErrorKind :=
  match r with
  | Ok _ => None
  | Err e => errorKind e
  end.

(** A text that is empty or consists of white space only. *)
Definition isBlank (s : text) : bool := forallb JS.isWhiteSpace s.

(** The error reported for a field if it is violated, and the number of
    errors a field contributes. *)
Definition errorIf (violated : bool) (e : text) : list text :=
  if violated then [e] else [].

Definition count (violated : bool) : nat := if violated then 1 else 0.

(** Every record is stored under its own id. *)
Definition keyed_by_id (st : State) : Prop :=
  (forall k data, DataItemsStorage st !! k = Some data -> DataItem.id data = k) /\
  (forall k purchaser,
     purchasersStorage st !! k = Some purchaser -> Purchaser.id purchaser = k).

(** [needle] occurs in [haystack] when case is ignored: the lower-cased
    needle is a contiguous part of the lower-cased haystack. *)
Definition containsIgnoringCase `{JS.Unicode} (haystack needle : text) : Prop :=
  exists pre post,
    JS.toLowerCase haystack = pre ++ JS.toLowerCase needle ++ post.

(** A text of ASCII characters only. *)
Definition isAscii (s : text) : Prop := Forall (fun c => c < 128) s.

(** Two characters that are the same letter in either case, or equal. *)
Definition sameLetter (a b : N) : Prop :=
  a = b \/ (65 <= a <= 90 /\ b = a + 32) \/ (65 <= b <= 90 /\ a = b + 32).

(** [needle] occurs in [haystack] when the case of letters is ignored:
    some contiguous part of [haystack] agrees with [needle] character by
    character up to case. *)
Definition occursIgnoringCase (needle haystack : text) : Prop :=
  exists pre mid post,
    haystack = pre ++ mid ++ post /\ Forall2 sameLetter mid needle.

(** [kept P l l']: [l'] consists of exactly the elements of [l] that
    satisfy [P], each as often as in [l] and in the order of [l]. *)
Inductive kept {A : Type} (P : A -> Prop) : list A -> list A -> Prop :=
| kept_nil : kept P [] []
| kept_take x l l' : P x -> kept P l l' -> kept P (x :: l) (x :: l')
| kept_drop x l l' : ~ P x -> kept P l l' -> kept P (x :: l) l'.

(** The byte at index [i] of the array an identifier is printed from: the
    random bytes with the version and variant bits set. *)
Definition uuidByte (random : nat -> N) (i : nat) : N :=
  Uuid.at_ (Uuid.setVersion (Uuid.getRandomValues random)) i.

(** [part] occurs in [whole] as a contiguous run of code units. *)
Definition occursIn (part whole : text) : Prop :=
  exists pre post, whole = pre ++ part ++ post.

(** ** Sample data

    Principals, payloads, identifiers and a small state on which the
    methods are evaluated in Part II. *)
Module Sample.
Import JS.

Definition alice : Principal.t := Principal.fromText (lit "2vxsx-fae").
Definition bob : Principal.t := Principal.fromText (lit "rrkah-fqaaa-aaaaa-aaaaq-cai").

Definition datasetA : DataItemPayload.t :=
  {| DataItemPayload.title := lit "Dataset A";
     DataItemPayload.description := lit "CSV file";
     DataItemPayload.price := 100;
     DataItemPayload.attachmentURL := lit "http://x";
     DataItemPayload.dataFormat := lit "csv";
     DataItemPayload.status := lit "active";
     DataItemPayload.quality := lit "high";
     DataItemPayload.rating := 5 |}.

Definition datasetB : DataItemPayload.t :=
  {| DataItemPayload.title := lit "Weather";
     DataItemPayload.description := lit "Hourly FOO readings";
     DataItemPayload.price := 7;
     DataItemPayload.attachmentURL := lit "http://y";
     DataItemPayload.dataFormat := lit "JSON";
     DataItemPayload.status := lit "active";
     DataItemPayload.quality := lit "raw";
     DataItemPayload.rating := 3 |}.

Definition buyer : PurchaserPayload.t :=
  {| PurchaserPayload.name := lit "Carol";
     PurchaserPayload.price := 50;
     PurchaserPayload.message := lit "hello" |}.

Definition id1 : text := lit "123e4567-e89b-42d3-a456-426614174000".
Definition id2 : text := lit "9B2C0F1A-77aa-4bcd-8EEF-0123456789ab".
Definition id3 : text := lit "00000000-0000-4000-8000-000000000001".
Definition id4 : text := lit "ffffffff-ffff-4fff-bfff-ffffffffffff".
Definition notAUuid : text := lit "not-a-uuid".

Definition item1 : DataItem.t := newDataItem id1 alice datasetA.
Definition item2 : DataItem.t := newDataItem id2 alice datasetB.
Definition item3 : DataItem.t := newDataItem id3 bob datasetA.
Definition item4 : DataItem.t := newDataItem id4 bob datasetB.
Definition carol : Purchaser.t :=
  {| Purchaser.id := id3; Purchaser.owner := alice; Purchaser.name := lit "Carol";
     Purchaser.price := 50; Purchaser.message := lit "hello";
     Purchaser.purchasedItem := [id1] |}.

(** A state with four listings and one purchaser. *)
Definition market : State :=
  {| DataItemsStorage :=
       <[id1 := item1]> (<[id2 := item2]> (<[id3 := item3]> (<[id4 := item4]> ∅)));
     purchasersStorage := <[id3 := carol]> ∅ |}.

(** Random draws: the value of [Math.floor(Math.random() * 256)] at
    iteration [i]. *)
Definition draws (i : nat) : N := (N.of_nat i * 37 + 11) mod 256.

Definition id5 : text := lit "aaaaaaaa-aaaa-4aaa-8aaa-aaaaaaaaaaaa".

(** A payload whose title is blank and whose price is zero. *)
Definition blankTitle : DataItemPayload.t :=
  {| DataItemPayload.title := lit " ";
     DataItemPayload.description := lit "CSV file";
     DataItemPayload.price := 0;
     DataItemPayload.attachmentURL := lit "http://x";
     DataItemPayload.dataFormat := lit "csv";
     DataItemPayload.status := lit "active";
     DataItemPayload.quality := lit "high";
     DataItemPayload.rating := 5 |}.

(** The state after one listing has been created from the empty state. *)
Definition firstListing : State :=
  step (H := AsciiCase) alice (CallAddDataItem draws datasetA) initState.

(** A purchaser payload that differs from what [carol] holds. *)
Definition newBuyer : PurchaserPayload.t :=
  {| PurchaserPayload.name := lit "Dave";
     PurchaserPayload.price := 75;
     PurchaserPayload.message := lit "second thoughts" |}.

(** A payload whose text fields are a space and a tab, a line feed, a
    no-break space and the empty string, and whose price is zero. *)
Definition blanks : DataItemPayload.t :=
  {| DataItemPayload.title := [32; 9];
     DataItemPayload.description := [10];
     DataItemPayload.price := 0;
     DataItemPayload.attachmentURL := [];
     DataItemPayload.dataFormat := lit "csv";
     DataItemPayload.status := lit "active";
     DataItemPayload.quality := [160];
     DataItemPayload.rating := 5 |}.

Definition blankBuyer : PurchaserPayload.t :=
  {| PurchaserPayload.name := [32; 32];
     PurchaserPayload.price := 50;
     PurchaserPayload.message := lit "hello" |}.

(** Two more sequences of random draws, a third listing, and the state
    reached from the empty one by three creations. *)
Definition draws2 (i : nat) : N := (N.of_nat i * 91 + 200) mod 256.
Definition draws3 (i : nat) : N := (N.of_nat i * 13 + 77) mod 256.

Definition datasetC : DataItemPayload.t :=
  {| DataItemPayload.title := lit "Food prices";
     DataItemPayload.description := lit "weekly";
     DataItemPayload.price := 12;
     DataItemPayload.attachmentURL := lit "http://z";
     DataItemPayload.dataFormat := lit "Json";
     DataItemPayload.status := lit "active";
     DataItemPayload.quality := lit "curated";
     DataItemPayload.rating := 4 |}.

Definition shop : State :=
  step (H := AsciiCase) alice (CallAddDataItem draws3 datasetC)
    (step (H := AsciiCase) bob (CallAddDataItem draws2 datasetB) firstListing).

(** A listing whose title is a capital alpha followed by a capital sigma,
    the query that is a capital sigma alone, and the state that holds just
    this listing. *)
Definition sigma : text := [931].

Definition sigmaListing : DataItemPayload.t :=
  {| DataItemPayload.title := [913; 931];
     DataItemPayload.description := lit "Greek letters";
     DataItemPayload.price := 3;
     DataItemPayload.attachmentURL := lit "http://s";
     DataItemPayload.dataFormat := lit "txt";
     DataItemPayload.status := lit "active";
     DataItemPayload.quality := lit "high";
     DataItemPayload.rating := 1 |}.

Definition sigmaShop : State :=
  step (H := GreekCase) alice (CallAddDataItem draws sigmaListing) initState.

End Sample.

(* ================================================================== *)
(** * Part II.  Properties *)
(* ================================================================== *)

(** ** Facts about the built-ins *)
Module JSFacts.
Import JS.

Section Matcher.
Context `{Unicode}.

Lemma Canonicalize_ascii c : c < 128 -> Canonicalize true c = asciiUpper c.
Proof.
  intros Hc. unfold Canonicalize. rewrite toUpperCase_ascii by assumption.
  assert (E : (128 <=? c) = false) by (apply N.leb_gt; assumption).
  rewrite E. reflexivity.
Qed.

Lemma Canonicalize_high c : 128 <= c -> 128 <= Canonicalize true c.
Proof.
  intros Hc. unfold Canonicalize.
  destruct (toUpperCase [c]) as [|cu [|? ?]]; try assumption.
  assert (E : (128 <=? c) = true) by (apply N.leb_le; assumption).
  rewrite E. cbn [andb].
  destruct (cu <? 128) eqn:Ecu; [assumption|].
  apply N.ltb_ge in Ecu. assumption.
Qed.

Lemma asciiUpper_lt c : c < 128 -> asciiUpper c < 128.
Proof.
  intros Hc. unfold asciiUpper.
  destruct ((97 <=? c) && (c <=? 122)); lia.
Qed.

Lemma In_rangeMembers m r :
  In m (rangeMembers r) <-> fst r <= m <= snd r.
Proof.
  unfold rangeMembers. rewrite in_map_iff. split.
  - intros (i & <- & Hi). apply in_seq in Hi. lia.
  - intros Hm. exists (N.to_nat (m - fst r)). split; [lia|].
    apply in_seq. lia.
Qed.

Lemma matchTimes_Some ignore a n before after b' a' :
  matchTimes ignore a n before after = Some (b', a') <->
  exists g, length g = n /\ Forall (fun c => matchAtom ignore a c = true) g
            /\ after = g ++ a' /\ b' = rev g ++ before.
Proof.
  revert before after. induction n as [|n IH]; intros before after; cbn [matchTimes].
  - split.
    + intros [= <- <-]. exists []. repeat split; constructor.
    + intros (g & Hlen & _ & -> & ->).
      destruct g; [reflexivity | discriminate].
  - destruct after as [|c after].
    + split; [discriminate|].
      intros (g & Hlen & _ & Happ & _). destruct g; discriminate.
    + destruct (matchAtom ignore a c) eqn:Ec.
      * rewrite IH. split.
        -- intros (g & Hlen & Hall & -> & ->). exists (c :: g).
           repeat split.
           ++ cbn. congruence.
           ++ constructor; assumption.
           ++ cbn [rev]. rewrite <- app_assoc. reflexivity.
        -- intros (g & Hlen & Hall & Happ & ->).
           destruct g as [|c' g]; [discriminate|].
           injection Happ as <- ->. injection Hlen as Hlen.
           inversion Hall; subst. exists g. repeat split; try assumption.
           cbn [rev]. rewrite <- app_assoc. reflexivity.
      * split; [discriminate|].
        intros (g & Hlen & Hall & Happ & _).
        destruct g as [|c' g]; [discriminate|].
        injection Happ as <- ->. inversion Hall; congruence.
Qed.

Lemma matchTimes_app ignore a n g before rest :
  length g = n ->
  Forall (fun c => matchAtom ignore a c = true) g ->
  matchTimes ignore a n before (g ++ rest) = Some (rev g ++ before, rest).
Proof.
  intros Hlen Hall. apply matchTimes_Some. exists g. repeat split; assumption.
Qed.

(** A pattern anchored by [^] can only match at index 0, so the search of
    [execFrom] over later indices never succeeds. *)
Lemma execFrom_anchored re ts c before after :
  pattern re = AssertStart :: ts ->
  execFrom re (c :: before) after = false.
Proof.
  intros Hre. revert c before. induction after as [|d after IH]; intros c before.
  - cbn [execFrom]. rewrite Hre. reflexivity.
  - cbn [execFrom]. rewrite Hre. cbn [matchTerms matchTerm].
    apply IH.
Qed.

Lemma test_anchored re ts input :
  pattern re = AssertStart :: ts ->
  test re input = true <->
  exists b a, matchTerms (ignoreCase re) ts [] input = Some (b, a).
Proof.
  intros Hre. unfold test.
  destruct input as [|c input]; cbn [execFrom]; rewrite Hre;
    cbn [matchTerms matchTerm].
  - destruct (matchTerms (ignoreCase re) ts [] []) as [[b a]|].
    + split; [eauto | reflexivity].
    + split; [discriminate | intros (b & a & [=])].
  - destruct (matchTerms (ignoreCase re) ts [] (c :: input)) as [[b a]|].
    + split; [eauto | reflexivity].
    + rewrite (execFrom_anchored re ts c [] input Hre).
      split; [discriminate | intros (b & a & [=])].
Qed.

End Matcher.

(** *** Strings *)

Lemma startsWith_spec s sub :
  startsWith s sub = true <-> exists post, s = sub ++ post.
Proof.
  revert s. induction sub as [|x sub IH]; intros s; cbn [startsWith].
  - split; [intros _; exists s; reflexivity | reflexivity].
  - destruct s as [|c s].
    + split; [discriminate | intros (post & [=])].
    + rewrite andb_true_iff, N.eqb_eq, IH. split.
      * intros (-> & post & ->). exists post. reflexivity.
      * intros (post & [= -> ->]). split; [reflexivity | eauto].
Qed.

(** [includes] decides the substring relation. *)
Lemma includes_spec s sub :
  includes s sub = true <-> exists pre post, s = pre ++ sub ++ post.
Proof.
  induction s as [|c s IH]; cbn [includes]; rewrite orb_true_iff, startsWith_spec.
  - split.
    + intros [(post & ->) | [=]]. exists [], post. reflexivity.
    + intros (pre & post & Hs). left.
      destruct pre; [exists post; assumption | discriminate].
  - rewrite IH. split.
    + intros [(post & ->) | (pre & post & ->)].
      * exists [], post. reflexivity.
      * exists (c :: pre), post. reflexivity.
    + intros (pre & post & Hs). destruct pre as [|c' pre].
      * left. exists post. assumption.
      * right. injection Hs as <- ->. eauto.
Qed.

Lemma trimStart_nil s :
  trimStart s = [] <-> Forall (fun c => isWhiteSpace c = true) s.
Proof.
  induction s as [|c s IH]; cbn [trimStart].
  - split; [constructor | reflexivity].
  - destruct (isWhiteSpace c) eqn:Ec.
    + rewrite IH. split; [intros; constructor; assumption | intros Hall; inversion Hall; assumption].
    + split; [discriminate | intros Hall; inversion Hall; congruence].
Qed.

(** A string trims to the empty string exactly when it consists of white
    space only. *)
Lemma trim_nil s :
  trim s = [] <-> Forall (fun c => isWhiteSpace c = true) s.
Proof.
  unfold trim, trimEnd. split.
  - intros Ht. apply trimStart_nil.
    destruct (trimStart s) as [|c s'] eqn:Es; [reflexivity|].
    exfalso.
    assert (Hnw : isWhiteSpace c = false).
    { clear Ht. induction s as [|d s IH]; [discriminate|].
      cbn [trimStart] in Es. destruct (isWhiteSpace d) eqn:Ed; [auto|].
      injection Es as -> _. assumption. }
    apply (f_equal (@rev N)) in Ht. rewrite rev_involutive in Ht. cbn in Ht.
    apply trimStart_nil in Ht. cbn [rev] in Ht.
    apply Forall_app in Ht as [_ Hc]. inversion Hc; congruence.
  - intros Hall. apply trimStart_nil in Hall. rewrite Hall. reflexivity.
Qed.

(** *** Numbers and arrays *)

Lemma Number_exact b : b < 2 ^ 53 -> Number b = Z.of_N b.
Proof.
  intros Hb. unfold Number.
  assert (E : (N.size b <=? 53) = true).
  { apply N.leb_le. destruct (N.eq_dec b 0) as [-> | Hnz]; [cbn; lia|].
    rewrite N.size_log2 by assumption.
    apply N.le_succ_l, N.log2_lt_pow2; lia. }
  rewrite E. reflexivity.
Qed.

Lemma Number_nonneg b : (0 <= Number b)%Z.
Proof. unfold Number. destruct (N.size b <=? 53); lia. Qed.

(** Rounding never takes a BigInt of at least 2^53 below 2^53. *)
Lemma Number_large b : 2 ^ 53 <= b -> (2 ^ 53 <= Number b)%Z.
Proof.
  intros Hb. unfold Number.
  destruct (N.size b <=? 53) eqn:E.
  - lia.
  - apply N.leb_gt in E.
    assert (Hnz : b <> 0) by lia.
    rewrite N.size_log2 in * by assumption.
    set (e := N.succ (N.log2 b) - 53) in *.
    assert (He : N.log2 b = 52 + e) by lia.
    pose proof (N.log2_spec b ltac:(lia)) as [Hlo _]. rewrite He in Hlo.
    rewrite N.pow_add_r in Hlo.
    assert (Hq : 2 ^ 52 <= N.shiftr b e).
    { rewrite N.shiftr_div_pow2. apply N.div_le_lower_bound; [apply N.pow_nonzero; lia|].
      lia. }
    set (q := N.shiftr b e) in *.
    match goal with
    | |- context [if ?c then q + 1 else q] =>
        assert (Hq' : q <= (if c then q + 1 else q)) by (destruct c; lia);
        generalize dependent (if c then q + 1 else q); intros q' Hq'
    end.
    rewrite N.shiftl_mul_pow2.
    assert (H2 : 2 <= 2 ^ e).
    { change 2 with (2 ^ 1) at 1. apply N.pow_le_mono_r; lia. }
    change (2 ^ 53)%Z with (Z.of_N (2 ^ 52 * 2)).
    apply N2Z.inj_le.
    apply N.mul_le_mono; lia.
Qed.

(** Against an array shorter than 2^53 a rounded index clamps like the
    exact one. *)
Lemma Number_clamp b len :
  (len <= 2 ^ 53)%Z -> Z.min (Number b) len = Z.min (Z.of_N b) len.
Proof.
  intros Hlen. destruct (N.lt_ge_cases b (2 ^ 53)) as [Hb | Hb].
  - rewrite Number_exact by assumption. reflexivity.
  - pose proof (Number_large b Hb).
    assert (2 ^ 53 <= Z.of_N b)%Z.
    { change (2 ^ 53)%Z with (Z.of_N (2 ^ 53)). apply N2Z.inj_le. assumption. }
    lia.
Qed.

(** [slice(Number(start), Number(start + limit))]: the [limit] elements
    from offset [start], as far as the array goes. *)
Lemma slice_Number {A : Type} (l : list A) (start limit : N) :
  (Z.of_nat (length l) <= 2 ^ 53)%Z ->
  slice l (Number start) (Number (start + limit))
  = take (N.to_nat limit) (drop (N.to_nat start) l).
Proof.
  intros Hlen. unfold slice.
  pose proof (Number_nonneg start) as Hs.
  pose proof (Number_nonneg (start + limit)) as He.
  destruct (Z.ltb_spec (Number start) 0) as [?|_]; [lia|].
  destruct (Z.ltb_spec (Number (start + limit)) 0) as [?|_]; [lia|].
  rewrite !Number_clamp by assumption.
  destruct (Z.le_gt_cases (Z.of_nat (length l)) (Z.of_N start)) as [Hge | Hlt].
  - rewrite (drop_ge l (N.to_nat start)) by lia.
    rewrite drop_ge by lia. rewrite !take_nil. reflexivity.
  - replace (Z.to_nat (Z.min (Z.of_N start) (Z.of_nat (length l))))
      with (N.to_nat start) by lia.
    destruct (Z.le_gt_cases (Z.of_N (start + limit)) (Z.of_nat (length l))) as [Hin | Hout].
    + f_equal. lia.
    + rewrite !take_ge; [reflexivity | |]; rewrite length_drop; lia.
Qed.

End JSFacts.

(** ** The identifier validator *)
Section IdentifierValidator.
Context `{JS.Unicode}.
Import JS JSFacts.

Ltac bool_to_prop :=
  repeat first
    [ rewrite orb_true_iff | rewrite andb_true_iff | rewrite orb_false_iff
    | rewrite andb_false_iff | rewrite N.leb_le | rewrite N.leb_gt
    | rewrite N.eqb_eq | rewrite N.eqb_neq | rewrite N.ltb_lt | rewrite N.ltb_ge ].

Ltac bool_to_prop_in H :=
  repeat first
    [ rewrite orb_true_iff in H | rewrite andb_true_iff in H
    | rewrite orb_false_iff in H | rewrite andb_false_iff in H
    | rewrite N.leb_le in H | rewrite N.leb_gt in H
    | rewrite N.eqb_eq in H | rewrite N.eqb_neq in H
    | rewrite N.ltb_lt in H | rewrite N.ltb_ge in H ].

Lemma isHexDigit_iff c :
  isHexDigit c = true <-> 48 <= c <= 57 \/ 65 <= c <= 70 \/ 97 <= c <= 102.
Proof. unfold isHexDigit. bool_to_prop. tauto. Qed.

Lemma asciiUpper_cases c :
  (97 <= c <= 122 /\ asciiUpper c = c - 32) \/
  ((c < 97 \/ 122 < c) /\ asciiUpper c = c).
Proof.
  unfold asciiUpper. destruct ((97 <=? c) && (c <=? 122)) eqn:E;
    bool_to_prop_in E; [left | right]; split; auto; lia.
Qed.

Lemma In_hexClass m :
  In m (atomMembers hexClass) <->
  48 <= m <= 57 \/ 97 <= m <= 102 \/ 65 <= m <= 70.
Proof.
  unfold hexClass. cbn [atomMembers]. rewrite in_flat_map. split.
  - intros (r & Hr & Hm). apply In_rangeMembers in Hm.
    cbn [In] in Hr. destruct Hr as [<- | [<- | [<- | []]]]; cbn [fst snd] in Hm; lia.
  - intros [Hm | [Hm | Hm]].
    + exists (48, 57). split; [cbn; auto | apply In_rangeMembers; assumption].
    + exists (97, 102). split; [cbn; auto | apply In_rangeMembers; assumption].
    + exists (65, 70). split; [cbn; auto | apply In_rangeMembers; assumption].
Qed.

(** Under the [i] flag the class [[0-9a-fA-F]] accepts exactly the
    hexadecimal digits: no code unit outside ASCII canonicalizes into it. *)
Lemma matchAtom_hexClass c : matchAtom true hexClass c = isHexDigit c.
Proof.
  apply eq_true_iff_eq. unfold matchAtom.
  rewrite existsb_exists, isHexDigit_iff. split.
  - intros (m & Hm & Heq). apply In_hexClass in Hm. apply N.eqb_eq in Heq.
    rewrite (Canonicalize_ascii m) in Heq by lia.
    destruct (N.lt_ge_cases c 128) as [Hc | Hc].
    + rewrite (Canonicalize_ascii c Hc) in Heq.
      destruct (asciiUpper_cases m) as [[? Em] | [? Em]],
               (asciiUpper_cases c) as [[? Ec] | [? Ec]]; lia.
    + pose proof (Canonicalize_high c Hc).
      destruct (asciiUpper_cases m) as [[? Em] | [? Em]]; lia.
  - intros Hc. exists c. split; [apply In_hexClass; lia | apply N.eqb_refl].
Qed.

Lemma matchAtom_hyphenChar c : matchAtom true hyphenChar c = (c =? 45).
Proof.
  apply eq_true_iff_eq. unfold matchAtom, hyphenChar. cbn [atomMembers existsb].
  rewrite orb_false_r, !N.eqb_eq, (Canonicalize_ascii 45) by lia.
  change (asciiUpper 45) with 45. split.
  - intros Heq. destruct (N.lt_ge_cases c 128) as [Hc | Hc].
    + rewrite (Canonicalize_ascii c Hc) in Heq.
      destruct (asciiUpper_cases c) as [[? Ec] | [? Ec]]; lia.
    + pose proof (Canonicalize_high c Hc). lia.
  - intros ->. rewrite Canonicalize_ascii by lia. reflexivity.
Qed.

Lemma Forall_hexClass g :
  Forall (fun c => matchAtom true hexClass c = true) g <->
  Forall (fun c => isHexDigit c = true) g.
Proof.
  split; intros Hall; eapply Forall_impl; try eassumption;
    intros c Hc; cbn beta in *; rewrite matchAtom_hexClass in *; assumption.
Qed.

Lemma isHexDigit_word c : isHexDigit c = true -> isWordCodeUnit c = true.
Proof.
  rewrite isHexDigit_iff. unfold isWordCodeUnit. bool_to_prop. lia.
Qed.

(** After a non-empty group of hexadecimal digits the character before the
    position is a word character. *)
Lemma IsWordChar_after_group n g before :
  hexGroup (S n) g -> IsWordChar (rev g ++ before) = true.
Proof.
  intros [Hlen Hall].
  destruct (rev g) as [|c r] eqn:Er.
  - apply (f_equal (@length N)) in Er. rewrite length_rev, Hlen in Er. discriminate.
  - cbn. apply isHexDigit_word.
    rewrite List.Forall_forall in Hall. apply Hall.
    apply in_rev. rewrite Er. left. reflexivity.
Qed.

Ltac match_step H :=
  lazymatch type of H with
  | match matchTimes ?i ?a ?n ?b ?af with _ => _ end = Some _ =>
      let E := fresh "E" in
      destruct (matchTimes i a n b af) as [[? ?]|] eqn:E; [|discriminate H];
      apply matchTimes_Some in E as (? & ? & ? & ? & ?); subst
  | match (if ?c then _ else _) with _ => _ end = Some _ =>
      destruct c eqn:?; [|discriminate H]
  | match (match ?a with [] => _ | _ :: _ => _ end) with _ => _ end = Some _ =>
      destruct a; [|discriminate H]
  end.

Lemma hyphen_group g :
  length g = 1%nat -> Forall (fun c => matchAtom true hyphenChar c = true) g ->
  g = Uuid.hyphen.
Proof.
  intros Hlen Hall. destruct g as [|c [|? ?]]; try discriminate.
  inversion Hall as [|? ? Hc _]; subst.
  rewrite matchAtom_hyphenChar in Hc. apply N.eqb_eq in Hc. subst. reflexivity.
Qed.

Lemma matchTimes_hyphen before rest :
  matchTimes true hyphenChar 1 before (Uuid.hyphen ++ rest)
  = Some (rev Uuid.hyphen ++ before, rest).
Proof.
  apply matchTimes_app; [reflexivity|].
  constructor; [|constructor]. rewrite matchAtom_hyphenChar. reflexivity.
Qed.

Lemma step_group n g before rest ts :
  hexGroup (S n) g ->
  matchTerms true (AtomTimes hexClass (S n) :: ts) before (g ++ rest)
  = matchTerms true ts (rev g ++ before) rest.
Proof.
  intros [Hlen Hall]. apply Forall_hexClass in Hall.
  cbn [matchTerms matchTerm].
  rewrite (matchTimes_app true hexClass (S n) g before rest Hlen Hall).
  reflexivity.
Qed.

Lemma step_group_end n g before ts :
  hexGroup (S n) g ->
  matchTerms true (AtomTimes hexClass (S n) :: ts) before g
  = matchTerms true ts (rev g ++ before) [].
Proof.
  intros Hg. pose proof (step_group n g before [] ts Hg) as E.
  rewrite app_nil_r in E. exact E.
Qed.

Lemma step_boundary n g before rest ts :
  hexGroup (S n) g ->
  matchTerms true (AssertWordBoundary :: ts) (rev g ++ before) (Uuid.hyphen ++ rest)
  = matchTerms true ts (rev g ++ before) (Uuid.hyphen ++ rest).
Proof.
  intros Hg. cbn [matchTerms matchTerm].
  rewrite (IsWordChar_after_group n g before Hg). reflexivity.
Qed.

Lemma step_hyphen before rest ts :
  matchTerms true (AtomOnce hyphenChar :: ts) before (Uuid.hyphen ++ rest)
  = matchTerms true ts (rev Uuid.hyphen ++ before) rest.
Proof.
  cbn [matchTerms matchTerm]. rewrite matchTimes_hyphen. reflexivity.
Qed.

(** The validator accepts exactly the strings of the canonical format. *)
Lemma isValidUuid_format id :
  isValidUuid id = true <-> canonicalIdFormat id.
Proof.
  unfold isValidUuid. rewrite (test_anchored regexExp _ id eq_refl).
  cbn [ignoreCase regexExp]. split.
  - intros (b & a & Hm). cbn [matchTerms matchTerm] in Hm.
    repeat match_step Hm.
    repeat match goal with
           | Hl : length ?g = 1%nat,
             Ha : Forall (fun c => matchAtom true hyphenChar c = true) ?g |- _ =>
               pose proof (hyphen_group g Hl Ha); subst g; clear Hl Ha
           end.
    repeat match goal with
           | Ha : Forall (fun c => matchAtom true hexClass c = true) _ |- _ =>
               apply Forall_hexClass in Ha
           end.
    rewrite app_nil_r.
    do 5 eexists. unfold hexGroup.
    repeat split; try eassumption; reflexivity.
  - intros (g1 & g2 & g3 & g4 & g5 & H1 & H2 & H3 & H4 & H5 & ->).
    rewrite (step_group 7 g1 [] _ _ H1), (step_boundary 7 g1 _ _ _ H1).
    rewrite step_hyphen.
    rewrite (step_group 3 g2 _ _ _ H2), (step_boundary 3 g2 _ _ _ H2).
    rewrite step_hyphen.
    rewrite (step_group 3 g3 _ _ _ H3), (step_boundary 3 g3 _ _ _ H3).
    rewrite step_hyphen.
    rewrite (step_group 3 g4 _ _ _ H4), (step_boundary 3 g4 _ _ _ H4).
    rewrite step_hyphen.
    rewrite (step_group_end 11 g5 _ _ H5).
    cbn [matchTerms matchTerm]. eauto.
Qed.

Lemma isValidUuid_false id :
  ~ canonicalIdFormat id -> isValidUuid id = false.
Proof.
  intros Hn. destruct (isValidUuid id) eqn:E; [|reflexivity].
  apply isValidUuid_format in E. contradiction.
Qed.

(** C4 (amended).  The identifier validator returns true for a string if
    and only if the string consists of groups of 8, 4, 4, 4 and 12
    hexadecimal digits, of either case, separated by hyphens.
    Consequently, for every id that is not of this form, [getDataItem]
    returns, whatever the store holds, the error whose payload is the plain
    text [Id=<id> is not in the valid uuid format.] with the id in double
    quotes: the error of this method is a [text], so it carries no
    [InvalidPayload] tag, and it is never the text [Data Item not found]. *)
Theorem isValidUuid_canonical_getDataItem_malformed (id : text) :
  (isValidUuid id = true <-> canonicalIdFormat id) /\
  (~ canonicalIdFormat id ->
   forall st : State,
     getDataItem id st = Err (badIdMessage "Id" id) /\
     resultKind (getDataItem id st) = None /\
     getDataItem id st <> Err (JS.lit "Data Item not found")).
Proof.
  split; [apply isValidUuid_format|].
  intros Hn st. unfold getDataItem.
  rewrite (isValidUuid_false id Hn). cbn [negb].
  repeat split. discriminate.
Qed.

End IdentifierValidator.

(** ** The payload validators *)
Section PayloadValidators.
Import JS.

Lemma isInvalidString_true s : isInvalidString s = true <-> trim s = [].
Proof.
  unfold isInvalidString. destruct (trim s); cbn; split; congruence.
Qed.

Lemma isInvalidString_false s : isInvalidString s = false <-> trim s <> [].
Proof.
  unfold isInvalidString. destruct (trim s); cbn; split; congruence.
Qed.

(** A field is rejected exactly when it holds white space only. *)
Lemma isInvalidString_whitespace s :
  isInvalidString s = true <-> Forall (fun c => isWhiteSpace c = true) s.
Proof. rewrite isInvalidString_true. apply JSFacts.trim_nil. Qed.

(** The validators in terms of their own test of a field. *)
Lemma validators_by_test :
  (forall p : DataItemPayload.t,
     (validateDataItemPayload p = [] <->
      trim (DataItemPayload.description p) <> [] /\
      trim (DataItemPayload.quality p) <> [] /\
      trim (DataItemPayload.title p) <> [] /\
      trim (DataItemPayload.attachmentURL p) <> [] /\
      DataItemPayload.price p <> 0) /\
     validateDataItemPayload p =
       errorIf (isInvalidString (DataItemPayload.description p))
               (emptyError "description" (DataItemPayload.description p)) ++
       errorIf (isInvalidString (DataItemPayload.quality p))
               (emptyError "quality" (DataItemPayload.quality p)) ++
       errorIf (isInvalidString (DataItemPayload.title p))
               (emptyError "title" (DataItemPayload.title p)) ++
       errorIf (isInvalidString (DataItemPayload.attachmentURL p))
               (emptyError "attachmentURL" (DataItemPayload.attachmentURL p)) ++
       errorIf (DataItemPayload.price p =? 0)
               (priceError (DataItemPayload.price p)) /\
     length (validateDataItemPayload p) =
       (count (isInvalidString (DataItemPayload.description p)) +
        count (isInvalidString (DataItemPayload.quality p)) +
        count (isInvalidString (DataItemPayload.title p)) +
        count (isInvalidString (DataItemPayload.attachmentURL p)) +
        count (DataItemPayload.price p =? 0)%N)%nat)
  /\
  (forall p : PurchaserPayload.t,
     (validatePurchaserPayload p = [] <->
      trim (PurchaserPayload.name p) <> [] /\
      trim (PurchaserPayload.message p) <> [] /\
      PurchaserPayload.price p <> 0) /\
     validatePurchaserPayload p =
       errorIf (isInvalidString (PurchaserPayload.name p))
               (emptyError "name" (PurchaserPayload.name p)) ++
       errorIf (isInvalidString (PurchaserPayload.message p))
               (emptyError "message" (PurchaserPayload.message p)) ++
       errorIf (PurchaserPayload.price p =? 0)
               (priceError (PurchaserPayload.price p)) /\
     length (validatePurchaserPayload p) =
       (count (isInvalidString (PurchaserPayload.name p)) +
        count (isInvalidString (PurchaserPayload.message p)) +
        count (PurchaserPayload.price p =? 0)%N)%nat).
Proof.
  split; intros p.
  - unfold validateDataItemPayload, pushIf, errorIf, count.
    rewrite <- !isInvalidString_false, <- N.eqb_neq.
    destruct (isInvalidString (DataItemPayload.description p)),
             (isInvalidString (DataItemPayload.quality p)),
             (isInvalidString (DataItemPayload.title p)),
             (isInvalidString (DataItemPayload.attachmentURL p)),
             (DataItemPayload.price p =? 0);
      cbn [app length Nat.add];
      (split; [split; [discriminate || tauto | intuition discriminate] | split; reflexivity]).
  - unfold validatePurchaserPayload, pushIf, errorIf, count.
    rewrite <- !isInvalidString_false, <- N.eqb_neq.
    destruct (isInvalidString (PurchaserPayload.name p)),
             (isInvalidString (PurchaserPayload.message p)),
             (PurchaserPayload.price p =? 0);
      cbn [app length Nat.add];
      (split; [split; [discriminate || tauto | intuition discriminate] | split; reflexivity]).
Qed.

Lemma isInvalidString_isBlank s : isInvalidString s = isBlank s.
Proof.
  apply eq_true_iff_eq. rewrite isInvalidString_whitespace. unfold isBlank.
  rewrite forallb_forall, List.Forall_forall. reflexivity.
Qed.

(** C5.  [validateDataItemPayload] returns the empty sequence if and only
    if description, quality, title and attachmentURL are all non-empty
    after trimming white space, that is, each holds a code unit that is not
    white space, and price is not zero.  In general it returns one error
    string for every violated field (a text field that is empty or white
    space only, a price of zero), in the order description, quality,
    title, attachmentURL, price: all violations are collected.  The same
    holds of [validatePurchaserPayload] over name, message and price. *)
Theorem validators_collect_all_violations :
  (forall s : text, trim s = [] <-> isBlank s = true) /\
  (forall p : DataItemPayload.t,
     (validateDataItemPayload p = [] <->
      isBlank (DataItemPayload.description p) = false /\
      isBlank (DataItemPayload.quality p) = false /\
      isBlank (DataItemPayload.title p) = false /\
      isBlank (DataItemPayload.attachmentURL p) = false /\
      DataItemPayload.price p <> 0) /\
     validateDataItemPayload p =
       errorIf (isBlank (DataItemPayload.description p))
               (emptyError "description" (DataItemPayload.description p)) ++
       errorIf (isBlank (DataItemPayload.quality p))
               (emptyError "quality" (DataItemPayload.quality p)) ++
       errorIf (isBlank (DataItemPayload.title p))
               (emptyError "title" (DataItemPayload.title p)) ++
       errorIf (isBlank (DataItemPayload.attachmentURL p))
               (emptyError "attachmentURL" (DataItemPayload.attachmentURL p)) ++
       errorIf (DataItemPayload.price p =? 0)
               (priceError (DataItemPayload.price p)) /\
     length (validateDataItemPayload p) =
       (count (isBlank (DataItemPayload.description p)) +
        count (isBlank (DataItemPayload.quality p)) +
        count (isBlank (DataItemPayload.title p)) +
        count (isBlank (DataItemPayload.attachmentURL p)) +
        count (DataItemPayload.price p =? 0)%N)%nat)
  /\
  (forall p : PurchaserPayload.t,
     (validatePurchaserPayload p = [] <->
      isBlank (PurchaserPayload.name p) = false /\
      isBlank (PurchaserPayload.message p) = false /\
      PurchaserPayload.price p <> 0) /\
     validatePurchaserPayload p =
       errorIf (isBlank (PurchaserPayload.name p))
               (emptyError "name" (PurchaserPayload.name p)) ++
       errorIf (isBlank (PurchaserPayload.message p))
               (emptyError "message" (PurchaserPayload.message p)) ++
       errorIf (PurchaserPayload.price p =? 0)
               (priceError (PurchaserPayload.price p)) /\
     length (validatePurchaserPayload p) =
       (count (isBlank (PurchaserPayload.name p)) +
        count (isBlank (PurchaserPayload.message p)) +
        count (PurchaserPayload.price p =? 0)%N)%nat).
Proof.
  destruct validators_by_test as [Hd Hp].
  split; [|split].
  - intros s. rewrite <- isInvalidString_isBlank. symmetry.
    apply isInvalidString_true.
  - intros p. specialize (Hd p). rewrite <- !isInvalidString_isBlank.
    rewrite !isInvalidString_false. exact Hd.
  - intros p. specialize (Hp p). rewrite <- !isInvalidString_isBlank.
    rewrite !isInvalidString_false. exact Hp.
Qed.

End PayloadValidators.

(** ** Ownership checks and the effect of the update methods *)
Section StoreOperations.
Context `{JS.Unicode}.
Import JS.

Lemma text_neq_true (a b : text) : text_neq a b = true <-> a <> b.
Proof.
  unfold text_neq. rewrite negb_true_iff, bool_decide_eq_false. reflexivity.
Qed.

Lemma Principal_toString_inj (p q : Principal.t) :
  Principal.toString p = Principal.toString q -> p = q.
Proof. destruct p, q. cbn. congruence. Qed.

(** The comparison of the two [toString()] results tells principals apart. *)
Lemma caller_differs (owner caller : Principal.t) :
  owner <> caller ->
  text_neq (Principal.toString owner) (Principal.toString caller) = true.
Proof.
  intros Hne. apply text_neq_true. intros Heq.
  apply Hne, Principal_toString_inj, Heq.
Qed.

Lemma caller_is_owner (owner caller : Principal.t) :
  owner = caller ->
  text_neq (Principal.toString owner) (Principal.toString caller) = false.
Proof.
  intros ->. unfold text_neq. rewrite bool_decide_eq_true_2; reflexivity.
Qed.

Lemma caller_known (owner caller : Principal.t) :
  text_neq (Principal.toString owner) (Principal.toString caller) = false ->
  owner = caller.
Proof.
  unfold text_neq. rewrite negb_false_iff, bool_decide_eq_true.
  apply Principal_toString_inj.
Qed.

Lemma valid_payload_passes (errors : list text) :
  errors = [] -> negb (length errors =? 0)%nat = false.
Proof. intros ->. reflexivity. Qed.

(** C1.  When the caller is not the owner (seller) of the record stored
    under a well-formed id, [updateDataItem] with a valid payload returns
    [AuthenticationFailed] and the state after the call is the state
    before it; so the stored record is unchanged.  The same holds of
    [updatePurchaser], [deleteDataItem], [deletePurchaser] and
    [addPurchasedItem]. *)
Theorem not_owner_rejected_state_unchanged (caller : Principal.t) (st : State) :
  (forall id payload data,
     isValidUuid id = true ->
     validateDataItemPayload payload = [] ->
     DataItemsStorage st !! id = Some data ->
     DataItem.seller data <> caller ->
     updateDataItem caller id payload st =
       (Err (AuthenticationFailed (lit "Caller is not the seller of the item.")), st)) /\
  (forall id payload purchaser,
     isValidUuid id = true ->
     validatePurchaserPayload payload = [] ->
     purchasersStorage st !! id = Some purchaser ->
     Purchaser.owner purchaser <> caller ->
     updatePurchaser caller id payload st =
       (Err (AuthenticationFailed (lit "Caller is not the purchaser.")), st)) /\
  (forall id data,
     isValidUuid id = true ->
     DataItemsStorage st !! id = Some data ->
     DataItem.seller data <> caller ->
     deleteDataItem caller id st =
       (Err (AuthenticationFailed (lit "Caller is not the seller of the item.")), st)) /\
  (forall id purchaser,
     isValidUuid id = true ->
     purchasersStorage st !! id = Some purchaser ->
     Purchaser.owner purchaser <> caller ->
     deletePurchaser caller id st =
       (Err (AuthenticationFailed (lit "Caller is not the purchaser.")), st)) /\
  (forall purchaserId itemId purchaser,
     isValidUuid purchaserId = true ->
     isValidUuid itemId = true ->
     purchasersStorage st !! purchaserId = Some purchaser ->
     Purchaser.owner purchaser <> caller ->
     addPurchasedItem caller purchaserId itemId st =
       (Err (AuthenticationFailed (lit "Caller is not the purchaser.")), st)).
Proof.
  repeat split.
  - intros id payload data Hid Hp Hget Hne.
    unfold updateDataItem, StableBTreeMap.get.
    rewrite Hid, (valid_payload_passes _ Hp), Hget, (caller_differs _ _ Hne).
    reflexivity.
  - intros id payload purchaser Hid Hp Hget Hne.
    unfold updatePurchaser, StableBTreeMap.get.
    rewrite Hid, (valid_payload_passes _ Hp), Hget, (caller_differs _ _ Hne).
    reflexivity.
  - intros id data Hid Hget Hne.
    unfold deleteDataItem, StableBTreeMap.get.
    rewrite Hid, Hget, (caller_differs _ _ Hne). reflexivity.
  - intros id purchaser Hid Hget Hne.
    unfold deletePurchaser, StableBTreeMap.get.
    rewrite Hid, Hget, (caller_differs _ _ Hne). reflexivity.
  - intros purchaserId itemId purchaser Hpid Hiid Hget Hne.
    unfold addPurchasedItem, StableBTreeMap.get.
    rewrite Hpid, Hiid, Hget, (caller_differs _ _ Hne). reflexivity.
Qed.

Lemma setDataItems_lookup (st : State) (m : gmap text DataItem.t) :
  DataItemsStorage (setDataItems st m) = m /\
  purchasersStorage (setDataItems st m) = purchasersStorage st.
Proof. split; reflexivity. Qed.

Lemma setPurchasers_lookup (st : State) (m : gmap text Purchaser.t) :
  purchasersStorage (setPurchasers st m) = m /\
  DataItemsStorage (setPurchasers st m) = DataItemsStorage st.
Proof. split; reflexivity. Qed.

(** C2.  For a record stored under a well-formed id, a valid payload and
    a caller equal to the stored seller, [updateDataItem] succeeds: it
    returns the record whose eight payload fields are those of the payload
    and whose id and seller are those of the record stored before, and in
    the state it leaves that record is what the DataItems store holds
    under the id (so [getDataItem] returns it), every other key and the
    purchasers store being as before.  [updatePurchaser] does the same
    with name, price and message, keeping id and owner (and the purchased
    items).  Conversely, whenever either method returns [Ok], a record was
    stored under the id, the caller is its owner, and the record returned
    has the id and the owner of that record and is what the store holds
    under the id afterwards. *)
Theorem update_keeps_id_and_owner (caller : Principal.t) (st : State) :
  (forall id payload data,
     isValidUuid id = true ->
     validateDataItemPayload payload = [] ->
     DataItemsStorage st !! id = Some data ->
     DataItem.seller data = caller ->
     exists updated,
       updateDataItem caller id payload st =
         (Ok updated, setDataItems st (<[id := updated]> (DataItemsStorage st))) /\
       DataItem.id updated = DataItem.id data /\
       DataItem.seller updated = DataItem.seller data /\
       DataItem.title updated = DataItemPayload.title payload /\
       DataItem.description updated = DataItemPayload.description payload /\
       DataItem.price updated = DataItemPayload.price payload /\
       DataItem.attachmentURL updated = DataItemPayload.attachmentURL payload /\
       DataItem.dataFormat updated = DataItemPayload.dataFormat payload /\
       DataItem.status updated = DataItemPayload.status payload /\
       DataItem.quality updated = DataItemPayload.quality payload /\
       DataItem.rating updated = DataItemPayload.rating payload /\
       DataItemsStorage (snd (updateDataItem caller id payload st)) !! id
         = Some updated /\
       getDataItem id (snd (updateDataItem caller id payload st)) = Ok updated /\
       (forall k, k <> id ->
          DataItemsStorage (snd (updateDataItem caller id payload st)) !! k
            = DataItemsStorage st !! k) /\
       purchasersStorage (snd (updateDataItem caller id payload st))
         = purchasersStorage st) /\
  (forall id payload purchaser,
     isValidUuid id = true ->
     validatePurchaserPayload payload = [] ->
     purchasersStorage st !! id = Some purchaser ->
     Purchaser.owner purchaser = caller ->
     exists updated,
       updatePurchaser caller id payload st =
         (Ok updated, setPurchasers st (<[id := updated]> (purchasersStorage st))) /\
       Purchaser.id updated = Purchaser.id purchaser /\
       Purchaser.owner updated = Purchaser.owner purchaser /\
       Purchaser.name updated = PurchaserPayload.name payload /\
       Purchaser.price updated = PurchaserPayload.price payload /\
       Purchaser.message updated = PurchaserPayload.message payload /\
       Purchaser.purchasedItem updated = Purchaser.purchasedItem purchaser /\
       purchasersStorage (snd (updatePurchaser caller id payload st)) !! id
         = Some updated /\
       getPurchaser id (snd (updatePurchaser caller id payload st)) = Ok updated /\
       (forall k, k <> id ->
          purchasersStorage (snd (updatePurchaser caller id payload st)) !! k
            = purchasersStorage st !! k) /\
       DataItemsStorage (snd (updatePurchaser caller id payload st))
         = DataItemsStorage st) /\
  (forall id payload updated st',
     updateDataItem caller id payload st = (Ok updated, st') ->
     exists data,
       DataItemsStorage st !! id = Some data /\
       DataItem.seller data = caller /\
       DataItem.id updated = DataItem.id data /\
       DataItem.seller updated = DataItem.seller data /\
       st' = setDataItems st (<[id := updated]> (DataItemsStorage st)) /\
       DataItemsStorage st' !! id = Some updated /\
       purchasersStorage st' = purchasersStorage st) /\
  (forall id payload updated st',
     updatePurchaser caller id payload st = (Ok updated, st') ->
     exists purchaser,
       purchasersStorage st !! id = Some purchaser /\
       Purchaser.owner purchaser = caller /\
       Purchaser.id updated = Purchaser.id purchaser /\
       Purchaser.owner updated = Purchaser.owner purchaser /\
       st' = setPurchasers st (<[id := updated]> (purchasersStorage st)) /\
       purchasersStorage st' !! id = Some updated /\
       DataItemsStorage st' = DataItemsStorage st).
Proof.
  split; [|split; [|split]].
  - intros id payload data Hid Hp Hget Hown.
    exists (mergeDataItem data payload).
    assert (E : updateDataItem caller id payload st =
                (Ok (mergeDataItem data payload),
                 setDataItems st (<[id := mergeDataItem data payload]> (DataItemsStorage st)))).
    { unfold updateDataItem, StableBTreeMap.get, StableBTreeMap.insert.
      rewrite Hid, (valid_payload_passes _ Hp), Hget, (caller_is_owner _ _ Hown).
      reflexivity. }
    rewrite E. cbn [snd].
    destruct (setDataItems_lookup st (<[id := mergeDataItem data payload]> (DataItemsStorage st)))
      as [Ed Epur].
    do 11 (split; [reflexivity|]).
    split; [rewrite Ed; apply lookup_insert_eq|].
    split; [unfold getDataItem, StableBTreeMap.get;
            rewrite Hid, Ed, lookup_insert_eq; reflexivity|].
    split; [intros k Hk; rewrite Ed; apply lookup_insert_ne; congruence|].
    exact Epur.
  - intros id payload purchaser Hid Hp Hget Hown.
    exists (mergePurchaser purchaser payload).
    assert (E : updatePurchaser caller id payload st =
                (Ok (mergePurchaser purchaser payload),
                 setPurchasers st
                   (<[id := mergePurchaser purchaser payload]> (purchasersStorage st)))).
    { unfold updatePurchaser, StableBTreeMap.get, StableBTreeMap.insert.
      rewrite Hid, (valid_payload_passes _ Hp), Hget, (caller_is_owner _ _ Hown).
      reflexivity. }
    rewrite E. cbn [snd].
    destruct (setPurchasers_lookup st
                (<[id := mergePurchaser purchaser payload]> (purchasersStorage st)))
      as [Ep Edat].
    do 7 (split; [reflexivity|]).
    split; [rewrite Ep; apply lookup_insert_eq|].
    split; [unfold getPurchaser, StableBTreeMap.get;
            rewrite Hid, Ep, lookup_insert_eq; reflexivity|].
    split; [intros k Hk; rewrite Ep; apply lookup_insert_ne; congruence|].
    exact Edat.
  - intros id payload updated st' Hrun.
    unfold updateDataItem, StableBTreeMap.get, StableBTreeMap.insert in Hrun.
    destruct (noKeys _); [discriminate|].
    destruct (negb (isValidUuid id)); [discriminate|].
    destruct (negb _); [discriminate|].
    destruct (DataItemsStorage st !! id) as [data|] eqn:Hget; [|discriminate].
    destruct (text_neq _ _) eqn:Hown; [discriminate|].
    injection Hrun as <- <-. exists data.
    apply (caller_known _ _) in Hown.
    destruct (setDataItems_lookup st (<[id := mergeDataItem data payload]> (DataItemsStorage st)))
      as [Ed Epur].
    split; [reflexivity|]. split; [exact Hown|].
    do 3 (split; [reflexivity|]).
    split; [rewrite Ed; apply lookup_insert_eq | exact Epur].
  - intros id payload updated st' Hrun.
    unfold updatePurchaser, StableBTreeMap.get, StableBTreeMap.insert in Hrun.
    destruct (noKeys _); [discriminate|].
    destruct (negb (isValidUuid id)); [discriminate|].
    destruct (negb _); [discriminate|].
    destruct (purchasersStorage st !! id) as [purchaser|] eqn:Hget; [|discriminate].
    destruct (text_neq _ _) eqn:Hown; [discriminate|].
    injection Hrun as <- <-. exists purchaser.
    apply (caller_known _ _) in Hown.
    destruct (setPurchasers_lookup st
                (<[id := mergePurchaser purchaser payload]> (purchasersStorage st)))
      as [Ep Edat].
    split; [reflexivity|]. split; [exact Hown|].
    do 3 (split; [reflexivity|]).
    split; [rewrite Ep; apply lookup_insert_eq | exact Edat].
Qed.

(** C6 (amended).  For every well-formed id not present in the DataItems
    store, [deleteDataItem] returns [NotFound] and the state is unchanged
    by the call. *)
Theorem deleteDataItem_absent_NotFound (caller : Principal.t) (id : text) (st : State) :
  isValidUuid id = true ->
  DataItemsStorage st !! id = None ->
  deleteDataItem caller id st = (Err (NotFound (dataItemNotFoundOnDelete id)), st).
Proof.
  intros Hid Hget. unfold deleteDataItem, StableBTreeMap.get.
  rewrite Hid, Hget. reflexivity.
Qed.

(** C7.  For a purchaser stored under a well-formed [purchaserId] whose
    owner is the caller, and any well-formed [itemId], [addPurchasedItem]
    succeeds and stores under [purchaserId] the purchaser whose
    [purchasedItem] is the previous sequence followed by [itemId], every
    other field being as before.  Nothing is asked of [itemId] beyond its
    format: it may already occur in the sequence and it need not be a key
    of the DataItems store, which the call leaves as it is. *)
Theorem addPurchasedItem_appends (caller : Principal.t) (purchaserId itemId : text)
    (st : State) (purchaser : Purchaser.t) :
  isValidUuid purchaserId = true ->
  isValidUuid itemId = true ->
  purchasersStorage st !! purchaserId = Some purchaser ->
  Purchaser.owner purchaser = caller ->
  exists stored,
    addPurchasedItem caller purchaserId itemId st =
      (Ok (lit "Item added to Purchaser"),
       setPurchasers st (<[purchaserId := stored]> (purchasersStorage st))) /\
    Purchaser.purchasedItem stored = Purchaser.purchasedItem purchaser ++ [itemId] /\
    Purchaser.id stored = Purchaser.id purchaser /\
    Purchaser.owner stored = Purchaser.owner purchaser /\
    Purchaser.name stored = Purchaser.name purchaser /\
    Purchaser.price stored = Purchaser.price purchaser /\
    Purchaser.message stored = Purchaser.message purchaser /\
    DataItemsStorage (snd (addPurchasedItem caller purchaserId itemId st))
      = DataItemsStorage st.
Proof.
  intros Hpid Hiid Hget Hown.
  exists (pushPurchasedItem purchaser itemId).
  unfold addPurchasedItem, StableBTreeMap.get, StableBTreeMap.insert.
  rewrite Hpid, Hiid, Hget, (caller_is_owner _ _ Hown).
  repeat split.
Qed.

End StoreOperations.

(** ** Facts about the store *)
Module StoreFacts.
Import StableBTreeMap.

Lemma key_leb_refl a : key_leb a a = true.
Proof.
  induction a as [|x a IH]; [reflexivity|]. cbn [key_leb].
  rewrite N.ltb_irrefl. exact IH.
Qed.

Lemma key_leb_total a b : key_leb a b = true \/ key_leb b a = true.
Proof.
  revert b. induction a as [|x a IH]; intros [|y b]; cbn [key_leb]; auto.
  destruct (N.ltb_spec x y), (N.ltb_spec y x); auto; lia.
Qed.

Lemma key_leb_trans a b c :
  key_leb a b = true -> key_leb b c = true -> key_leb a c = true.
Proof.
  revert b c. induction a as [|x a IH]; intros [|y b] [|z c]; cbn [key_leb];
    try congruence.
  destruct (N.ltb_spec x y), (N.ltb_spec y x), (N.ltb_spec y z), (N.ltb_spec z y),
           (N.ltb_spec x z), (N.ltb_spec z x);
    try congruence; try lia.
  apply IH.
Qed.

Lemma key_leb_antisym a b :
  key_leb a b = true -> key_leb b a = true -> a = b.
Proof.
  revert b. induction a as [|x a IH]; intros [|y b]; cbn [key_leb];
    try congruence.
  destruct (N.ltb_spec x y), (N.ltb_spec y x); try congruence; try lia.
  intros Hab Hba. f_equal; [lia | apply IH; assumption].
Qed.

#[local] Instance entry_le_total {V : Type} : Total (@entry_le V).
Proof. intros e1 e2. apply key_leb_total. Qed.

#[local] Instance entry_le_trans {V : Type} : Transitive (@entry_le V).
Proof. intros e1 e2 e3. apply key_leb_trans. Qed.

(** The entries are those of the map, each once, by ascending key. *)
Lemma entries_Permutation {V : Type} (m : gmap text V) :
  entries m ≡ₚ map_to_list m.
Proof. apply merge_sort_Permutation. Qed.

Lemma entries_sorted {V : Type} (m : gmap text V) :
  StronglySorted entry_le (entries m).
Proof. apply StronglySorted_merge_sort; apply _. Qed.

Lemma entries_elem_of {V : Type} (m : gmap text V) (k : text) (v : V) :
  (k, v) ∈ entries m <-> m !! k = Some v.
Proof. rewrite entries_Permutation. apply elem_of_map_to_list. Qed.

Lemma values_empty {V : Type} : values (∅ : gmap text V) = [].
Proof. unfold values, entries. rewrite map_to_list_empty. reflexivity. Qed.

Lemma values_In {V : Type} (m : gmap text V) (v : V) :
  In v (values m) <-> exists k, m !! k = Some v.
Proof.
  unfold values. rewrite <- list_elem_of_In, list_elem_of_fmap. split.
  - intros ([k v'] & -> & Hin). apply entries_elem_of in Hin. eauto.
  - intros (k & Hk). exists (k, v). split; [reflexivity|].
    apply entries_elem_of. exact Hk.
Qed.

Lemma values_length {V : Type} (m : gmap text V) :
  length (values m) = size m.
Proof.
  unfold values. rewrite length_fmap, entries_Permutation.
  apply length_map_to_list.
Qed.

(** When every value is stored under the key [key_of] gives it, the keys
    of the listed values are the keys of the map. *)
Lemma values_keys {V : Type} (key_of : V -> text) (m : gmap text V) :
  (forall k v, m !! k = Some v -> key_of v = k) ->
  List.map key_of (values m) = (entries m).*1.
Proof.
  intros Hkey. unfold values.
  assert (Hall : Forall (fun kv => key_of kv.2 = kv.1) (entries m)).
  { apply List.Forall_forall. intros [k v] Hin.
    apply list_elem_of_In, entries_elem_of in Hin. cbn. auto. }
  induction Hall as [|kv l Hkv _ IH]; [reflexivity|].
  cbn. rewrite Hkv. f_equal. exact IH.
Qed.

(** They are then pairwise distinct, *)
Lemma values_keys_NoDup {V : Type} (key_of : V -> text) (m : gmap text V) :
  (forall k v, m !! k = Some v -> key_of v = k) ->
  NoDup (List.map key_of (values m)).
Proof.
  intros Hkey. rewrite (values_keys key_of m Hkey), entries_Permutation.
  apply NoDup_fst_map_to_list.
Qed.

(** and ascending. *)
Lemma values_keys_sorted {V : Type} (key_of : V -> text) (m : gmap text V) :
  (forall k v, m !! k = Some v -> key_of v = k) ->
  StronglySorted (fun a b => key_leb a b = true) (List.map key_of (values m)).
Proof.
  intros Hkey. rewrite (values_keys key_of m Hkey).
  apply (StronglySorted_fmap fst entry_le); [|apply entries_sorted].
  intros e1 e2 Hle. exact Hle.
Qed.

Lemma StronglySorted_sublist {A : Type} (R : relation A) (l l' : list A) :
  sublist l' l -> StronglySorted R l -> StronglySorted R l'.
Proof.
  induction 1 as [|x l1 l2 Hsub IH|x l1 l2 Hsub IH]; intros Hs.
  - constructor.
  - apply StronglySorted_inv in Hs as [Hs Hx]. constructor; [auto|].
    rewrite Forall_forall in Hx. apply Forall_forall. intros y Hy. apply Hx.
    eapply elem_of_sublist; eassumption.
  - apply StronglySorted_inv in Hs as [Hs _]. auto.
Qed.

End StoreFacts.
Export StoreFacts.

(** ** The stored id is the key *)
Section KeyInvariant.
Context `{JS.Unicode}.

Lemma keyed_insert {V : Type} (key_of : V -> text) (m : gmap text V) k0 v :
  (forall k x, m !! k = Some x -> key_of x = k) ->
  key_of v = k0 ->
  forall k x, <[k0 := v]> m !! k = Some x -> key_of x = k.
Proof.
  intros Hm Hv k x Hx. apply lookup_insert_Some in Hx as [[<- <-] | [_ Hx]]; auto.
Qed.

Lemma keyed_delete {V : Type} (key_of : V -> text) (m : gmap text V) k0 :
  (forall k x, m !! k = Some x -> key_of x = k) ->
  forall k x, delete k0 m !! k = Some x -> key_of x = k.
Proof.
  intros Hm k x Hx. apply lookup_delete_Some in Hx as [_ Hx]. auto.
Qed.

Lemma keyed_by_id_init : keyed_by_id initState.
Proof.
  split; intros k x Hx; cbn in Hx; rewrite lookup_empty in Hx; discriminate.
Qed.

Ltac by_cases :=
  repeat match goal with
         | |- context [if ?b then _ else _] => destruct b eqn:?
         | |- context [match StableBTreeMap.get ?m ?k with _ => _ end] =>
             unfold StableBTreeMap.get; destruct (m !! k) eqn:?
         end.

(** Every update method keeps the invariant. *)
Lemma keyed_by_id_step caller c st :
  keyed_by_id st -> keyed_by_id (step caller c st).
Proof.
  intros Hinv. pose proof Hinv as [Hd Hp].
  destruct c; cbn [step];
    [ unfold addDataItem | unfold addPurchaser | unfold updateDataItem
    | unfold updatePurchaser | unfold deleteDataItem | unfold deletePurchaser
    | unfold addPurchasedItem ];
    by_cases; cbn [snd]; try exact Hinv;
    unfold StableBTreeMap.insert, StableBTreeMap.remove;
    (split; cbn [DataItemsStorage purchasersStorage setDataItems setPurchasers];
     try assumption).
  - apply keyed_insert; [assumption | reflexivity].
  - apply keyed_insert; [assumption | reflexivity].
  - apply keyed_insert; [assumption | cbn; eauto].
  - apply keyed_insert; [assumption | cbn; eauto].
  - apply keyed_delete; assumption.
  - apply keyed_delete; assumption.
  - apply keyed_insert; [assumption | cbn; eauto].
Qed.

Lemma keyed_by_id_reachable st : reachable st -> keyed_by_id st.
Proof.
  induction 1 as [|caller c st _ IH].
  - apply keyed_by_id_init.
  - apply keyed_by_id_step, IH.
Qed.

(** C10.  In both stores every record is stored under its own id: this
    holds of the empty state, every update method ([addDataItem],
    [addPurchaser], [updateDataItem], [updatePurchaser], [addPurchasedItem],
    [deleteDataItem], [deletePurchaser]) preserves it, and so it holds of
    every reachable state.  Consequently a successful [deleteDataItem]
    (resp. [deletePurchaser]) returns exactly the id it was called with. *)
Theorem id_is_key_invariant :
  keyed_by_id initState /\
  (forall caller c st, keyed_by_id st -> keyed_by_id (step caller c st)) /\
  (forall st, reachable st -> keyed_by_id st) /\
  (forall caller id st deleted st',
     keyed_by_id st ->
     deleteDataItem caller id st = (Ok deleted, st') -> deleted = id) /\
  (forall caller id st deleted st',
     keyed_by_id st ->
     deletePurchaser caller id st = (Ok deleted, st') -> deleted = id).
Proof.
  split; [apply keyed_by_id_init|].
  split; [apply keyed_by_id_step|].
  split; [apply keyed_by_id_reachable|].
  split.
  - intros caller id st deleted st' [Hd _] Hdel.
    unfold deleteDataItem, StableBTreeMap.get in Hdel.
    destruct (negb (isValidUuid id)); [discriminate|].
    destruct (DataItemsStorage st !! id) as [data|] eqn:Hget; [|discriminate].
    destruct (text_neq _ _); [discriminate|].
    injection Hdel as <- _. apply Hd, Hget.
  - intros caller id st deleted st' [_ Hp] Hdel.
    unfold deletePurchaser, StableBTreeMap.get in Hdel.
    destruct (negb (isValidUuid id)); [discriminate|].
    destruct (purchasersStorage st !! id) as [purchaser|] eqn:Hget; [|discriminate].
    destruct (text_neq _ _); [discriminate|].
    injection Hdel as <- _. apply Hp, Hget.
Qed.

End KeyInvariant.

(** ** Search, filter and pagination *)
Section Queries.
Context `{JS.Unicode}.
Import JS.

Lemma includes_containsIgnoringCase haystack needle :
  includes (toLowerCase haystack) (toLowerCase needle) = true <->
  containsIgnoringCase haystack needle.
Proof. apply JSFacts.includes_spec. Qed.

(** [List.filter] with a test that decides [P] keeps exactly the elements
    satisfying [P]. *)
Lemma filter_kept {A : Type} (P : A -> Prop) (f : A -> bool) (l : list A) :
  (forall x, f x = true <-> P x) -> kept P l (List.filter f l).
Proof.
  intros Hf. induction l as [|x l IH]; cbn [List.filter].
  - constructor.
  - destruct (f x) eqn:Ex.
    + apply kept_take; [apply Hf, Ex | exact IH].
    + apply kept_drop; [|exact IH].
      intros HP. apply Hf in HP. congruence.
Qed.

Lemma kept_sublist {A : Type} (P : A -> Prop) (l l' : list A) :
  kept P l l' -> sublist l' l.
Proof.
  induction 1; [constructor | apply sublist_skip | apply sublist_cons]; assumption.
Qed.

Lemma kept_In {A : Type} (P : A -> Prop) (l l' : list A) :
  kept P l l' -> forall x, In x l' <-> In x l /\ P x.
Proof.
  induction 1 as [|y l l' Hy _ IH|y l l' Hy _ IH]; intros x; cbn [In].
  - tauto.
  - rewrite IH. split; [intros [<- | []]; auto | tauto].
  - rewrite IH. split; [tauto | intros [[<- | ?] ?]; [contradiction | auto]].
Qed.

(** The results in terms of the lower-cased strings. *)
Lemma search_and_filter_kept (query : text) (st : State) :
  kept (fun datum =>
          containsIgnoringCase (DataItem.title datum) query \/
          containsIgnoringCase (DataItem.description datum) query)
       (getDataItems st) (searchDataItem query st) /\
  (forall datum,
     In datum (searchDataItem query st) <->
     In datum (getDataItems st) /\
     (containsIgnoringCase (DataItem.title datum) query \/
      containsIgnoringCase (DataItem.description datum) query)) /\
  sublist (searchDataItem query st) (getDataItems st) /\
  searchDataItem query (setDataItems st ∅) = [] /\
  kept (fun datum => containsIgnoringCase (DataItem.dataFormat datum) query)
       (getDataItems st) (filterDataItem query st) /\
  (forall datum,
     In datum (filterDataItem query st) <->
     In datum (getDataItems st) /\
     containsIgnoringCase (DataItem.dataFormat datum) query) /\
  sublist (filterDataItem query st) (getDataItems st) /\
  filterDataItem query (setDataItems st ∅) = [].
Proof.
  assert (Hs : kept (fun datum =>
                 containsIgnoringCase (DataItem.title datum) query \/
                 containsIgnoringCase (DataItem.description datum) query)
              (getDataItems st) (searchDataItem query st)).
  { apply filter_kept. intros datum. unfold titleOrDescriptionMatches.
    rewrite orb_true_iff, !includes_containsIgnoringCase. reflexivity. }
  assert (Hf : kept (fun datum => containsIgnoringCase (DataItem.dataFormat datum) query)
              (getDataItems st) (filterDataItem query st)).
  { apply filter_kept. intros datum. unfold dataFormatMatches.
    apply includes_containsIgnoringCase. }
  split; [exact Hs|].
  split; [exact (kept_In _ _ _ Hs)|].
  split; [eapply kept_sublist, Hs|].
  split; [unfold searchDataItem, setDataItems; cbn [DataItemsStorage];
          rewrite values_empty; reflexivity|].
  split; [exact Hf|].
  split; [exact (kept_In _ _ _ Hf)|].
  split; [eapply kept_sublist, Hf|].
  unfold filterDataItem, setDataItems; cbn [DataItemsStorage].
  rewrite values_empty. reflexivity.
Qed.

Lemma asciiLower_sameLetter (a b : N) :
  asciiLower a = asciiLower b <-> sameLetter a b.
Proof.
  unfold asciiLower, sameLetter.
  destruct (N.leb_spec 65 a), (N.leb_spec a 90), (N.leb_spec 65 b), (N.leb_spec b 90);
    cbn [andb]; lia.
Qed.

Lemma map_asciiLower_eq (mid needle : text) :
  List.map asciiLower mid = List.map asciiLower needle <->
  Forall2 sameLetter mid needle.
Proof.
  revert needle. induction mid as [|a mid IH]; intros [|b needle]; cbn [List.map].
  - split; [constructor | reflexivity].
  - split; [discriminate | intros Hf; inversion Hf].
  - split; [discriminate | intros Hf; inversion Hf].
  - split.
    + intros [= Hab Hrest]. constructor; [apply asciiLower_sameLetter, Hab | apply IH, Hrest].
    + intros Hf. inversion Hf; subst. f_equal; [apply asciiLower_sameLetter | apply IH]; assumption.
Qed.

(** On ASCII text, containment of the lower-cased strings is containment
    up to the case of letters. *)
Lemma containsIgnoringCase_ascii (haystack needle : text) :
  (forall s, isAscii s -> toLowerCase s = List.map asciiLower s) ->
  isAscii haystack -> isAscii needle ->
  containsIgnoringCase haystack needle <-> occursIgnoringCase needle haystack.
Proof.
  intros Hlaw Hh Hn. unfold containsIgnoringCase, occursIgnoringCase.
  rewrite (Hlaw haystack Hh), (Hlaw needle Hn). split.
  - intros (pre & post & E).
    apply map_eq_app in E as (pre' & rest & -> & _ & E).
    apply map_eq_app in E as (mid & post' & -> & E & _).
    exists pre', mid, post'. split; [reflexivity | apply map_asciiLower_eq, E].
  - intros (pre & mid & post & -> & Hmid).
    exists (List.map asciiLower pre), (List.map asciiLower post).
    rewrite !List.map_app. apply map_asciiLower_eq in Hmid. rewrite Hmid. reflexivity.
Qed.

Lemma map_sublist {A B : Type} (f : A -> B) (l l' : list A) :
  sublist l' l -> sublist (List.map f l') (List.map f l).
Proof.
  induction 1; cbn [List.map]; [constructor | apply sublist_skip | apply sublist_cons];
    assumption.
Qed.

(** C8 (amended).  [searchDataItem] returns exactly the stored records
    for which the lower-cased title or description contains the
    lower-cased query, [toLowerCase] being applied to the whole strings,
    in the order (and multiplicity) in which [values()] lists them, hence
    a subsequence of [values()], which in a reachable state is by
    ascending id without repetition; on an empty store it returns the empty
    sequence.  When the query and the fields are ASCII, the records
    returned are exactly the stored records whose title or description
    contains the query with the case of letters ignored, lower-casing
    being letter by letter there.  [filterDataItem] does the same with the
    dataFormat field. *)
Theorem search_and_filter_exact (query : text) (st : State) :
  kept (fun datum =>
          containsIgnoringCase (DataItem.title datum) query \/
          containsIgnoringCase (DataItem.description datum) query)
       (getDataItems st) (searchDataItem query st) /\
  (forall datum,
     In datum (searchDataItem query st) <->
     (exists k, DataItemsStorage st !! k = Some datum) /\
     (containsIgnoringCase (DataItem.title datum) query \/
      containsIgnoringCase (DataItem.description datum) query)) /\
  sublist (searchDataItem query st) (getDataItems st) /\
  searchDataItem query (setDataItems st ∅) = [] /\
  kept (fun datum => containsIgnoringCase (DataItem.dataFormat datum) query)
       (getDataItems st) (filterDataItem query st) /\
  (forall datum,
     In datum (filterDataItem query st) <->
     (exists k, DataItemsStorage st !! k = Some datum) /\
     containsIgnoringCase (DataItem.dataFormat datum) query) /\
  sublist (filterDataItem query st) (getDataItems st) /\
  filterDataItem query (setDataItems st ∅) = [] /\
  ((forall s, isAscii s -> toLowerCase s = List.map asciiLower s) ->
   isAscii query ->
   forall datum,
     (isAscii (DataItem.title datum) ->
      isAscii (DataItem.description datum) ->
      (In datum (searchDataItem query st) <->
       (exists k, DataItemsStorage st !! k = Some datum) /\
       (occursIgnoringCase query (DataItem.title datum) \/
        occursIgnoringCase query (DataItem.description datum)))) /\
     (isAscii (DataItem.dataFormat datum) ->
      (In datum (filterDataItem query st) <->
       (exists k, DataItemsStorage st !! k = Some datum) /\
       occursIgnoringCase query (DataItem.dataFormat datum)))) /\
  (reachable st ->
   StronglySorted (fun a b => StableBTreeMap.key_leb a b = true)
     (List.map DataItem.id (searchDataItem query st)) /\
   NoDup (List.map DataItem.id (searchDataItem query st)) /\
   StronglySorted (fun a b => StableBTreeMap.key_leb a b = true)
     (List.map DataItem.id (filterDataItem query st)) /\
   NoDup (List.map DataItem.id (filterDataItem query st))).
Proof.
  destruct (search_and_filter_kept query st)
    as (Hs & Hsin & Hssub & Hsempty & Hf & Hfin & Hfsub & Hfempty).
  assert (Hstored : forall datum,
            In datum (getDataItems st) <-> exists k, DataItemsStorage st !! k = Some datum).
  { intros datum. apply values_In. }
  split; [exact Hs|].
  split; [intros datum; rewrite Hsin, Hstored; reflexivity|].
  split; [exact Hssub|].
  split; [exact Hsempty|].
  split; [exact Hf|].
  split; [intros datum; rewrite Hfin, Hstored; reflexivity|].
  split; [exact Hfsub|].
  split; [exact Hfempty|].
  split.
  - intros Hlaw Hq datum. split.
    + intros Ht Hd. rewrite Hsin, Hstored.
      rewrite (containsIgnoringCase_ascii _ _ Hlaw Ht Hq),
              (containsIgnoringCase_ascii _ _ Hlaw Hd Hq). reflexivity.
    + intros Hd. rewrite Hfin, Hstored.
      rewrite (containsIgnoringCase_ascii _ _ Hlaw Hd Hq). reflexivity.
  - intros Hreach. destruct (keyed_by_id_reachable st Hreach) as [Hkey _].
    pose proof (values_keys_sorted DataItem.id (DataItemsStorage st) Hkey) as Hsorted.
    pose proof (values_keys_NoDup DataItem.id (DataItemsStorage st) Hkey) as Hnodup.
    repeat split.
    + eapply StronglySorted_sublist; [apply map_sublist, Hssub | exact Hsorted].
    + eapply sublist_NoDup; [exact Hnodup | apply map_sublist, Hssub].
    + eapply StronglySorted_sublist; [apply map_sublist, Hfsub | exact Hsorted].
    + eapply sublist_NoDup; [exact Hnodup | apply map_sublist, Hfsub].
Qed.

(** C9.  [getMoreDataItems start limit] returns the contiguous part of
    [values()] that begins at offset [start] and holds [limit] records, or
    as many as the store has from there on; so it has at most [limit]
    records, and is empty when [start] is at or beyond the number of
    stored records.  (Like every JavaScript array, [values()] has fewer
    than 2^32 elements.) *)
Theorem getMoreDataItems_slice (start limit : N) (st : State) :
  (Z.of_nat (length (getDataItems st)) < 2 ^ 32)%Z ->
  getMoreDataItems start limit st
    = take (N.to_nat limit) (drop (N.to_nat start) (getDataItems st)) /\
  (length (getMoreDataItems start limit st) <= N.to_nat limit)%nat /\
  sublist (getMoreDataItems start limit st) (getDataItems st) /\
  ((length (getDataItems st) <= N.to_nat start)%nat ->
   getMoreDataItems start limit st = []).
Proof.
  intros Hlen.
  assert (E : getMoreDataItems start limit st
              = take (N.to_nat limit) (drop (N.to_nat start) (getDataItems st))).
  { unfold getMoreDataItems, getDataItems. cbv zeta.
    apply JSFacts.slice_Number. unfold getDataItems in Hlen. lia. }
  rewrite E. repeat split.
  - rewrite length_take. lia.
  - etransitivity; [apply sublist_take | apply sublist_drop].
  - intros Hge. rewrite drop_ge by exact Hge. apply take_nil.
Qed.

End Queries.

(** ** Generated identifiers *)
Module UuidFacts.
Import Uuid.

Lemma hexDigit_hex d : d < 16 -> isHexDigit (hexDigit d) = true.
Proof.
  intros Hd. unfold hexDigit, isHexDigit.
  destruct (N.ltb_spec d 10).
  - assert (E1 : (48 <=? 48 + d) = true) by (apply N.leb_le; lia).
    assert (E2 : (48 + d <=? 57) = true) by (apply N.leb_le; lia).
    rewrite E1, E2. reflexivity.
  - assert (E1 : (97 <=? 87 + d) = true) by (apply N.leb_le; lia).
    assert (E2 : (87 + d <=? 102) = true) by (apply N.leb_le; lia).
    rewrite E1, E2. apply orb_true_r.
Qed.

Lemma hexDigit_inj d d' : d < 16 -> d' < 16 -> hexDigit d = hexDigit d' -> d = d'.
Proof.
  unfold hexDigit. intros Hd Hd'.
  destruct (N.ltb_spec d 10), (N.ltb_spec d' 10); lia.
Qed.

Lemma byteToHex_hex b : b < 256 -> Forall (fun c => isHexDigit c = true) (byteToHex b).
Proof.
  intros Hb. unfold byteToHex.
  repeat constructor; apply hexDigit_hex.
  - apply N.Div0.div_lt_upper_bound. lia.
  - apply N.mod_lt. lia.
Qed.

Lemma byteToHex_inj b b' :
  b < 256 -> b' < 256 -> byteToHex b = byteToHex b' -> b = b'.
Proof.
  intros Hb Hb'. unfold byteToHex. intros [= Hhi Hlo].
  apply hexDigit_inj in Hhi; [| apply N.Div0.div_lt_upper_bound; lia ..].
  apply hexDigit_inj in Hlo; [| apply N.mod_lt; lia ..].
  rewrite (N.div_mod b 16), (N.div_mod b' 16) by lia. congruence.
Qed.

Lemma at_bound arr i : Forall (fun b => b < 256) arr -> at_ arr i < 256.
Proof.
  intros Hall. unfold at_. revert i.
  induction Hall as [|b arr Hb _ IH]; intros [|i]; cbn [nth]; auto; lia.
Qed.

Lemma lor_land_bound x mask bits :
  mask < 128 -> 0 < bits < 256 -> N.lor (N.land x mask) bits < 256.
Proof.
  intros Hm Hb.
  assert (Hl : N.land x mask < 128).
  { destruct (N.eq_dec (N.land x mask) 0) as [-> | Hnz]; [lia|].
    change 128 with (2 ^ 7). apply N.log2_lt_pow2; [lia|].
    eapply N.le_lt_trans; [apply N.log2_land|].
    destruct (N.eq_dec mask 0) as [-> | Hmz]; [cbn; lia|].
    eapply N.le_lt_trans; [apply N.le_min_r|].
    apply N.log2_lt_pow2; [lia | exact Hm]. }
  change 256 with (2 ^ 8). apply N.log2_lt_pow2.
  - destruct (N.eq_dec (N.lor (N.land x mask) bits) 0) as [E | ?]; [|lia].
    apply N.lor_eq_0_iff in E. lia.
  - rewrite N.log2_lor. apply N.max_lub_lt.
    + destruct (N.eq_dec (N.land x mask) 0) as [-> | Hnz]; [cbn; lia|].
      apply N.log2_lt_pow2; [lia|]. change (2 ^ 8) with 256. lia.
    + apply N.log2_lt_pow2; [lia|]. change (2 ^ 8) with 256. lia.
Qed.

Lemma getRandomValues_bytes random :
  Forall (fun b => b < 256) (getRandomValues random).
Proof.
  unfold getRandomValues. apply List.Forall_forall. intros b Hb.
  apply in_map_iff in Hb as (i & <- & _). apply N.mod_lt. lia.
Qed.

Lemma setVersion_bytes rnds :
  Forall (fun b => b < 256) rnds -> Forall (fun b => b < 256) (setVersion rnds).
Proof.
  intros Hall. unfold setVersion.
  apply Forall_insert; [apply Forall_insert; [assumption|] |];
    apply lor_land_bound; lia.
Qed.

Lemma uuidByte_bound random i : uuidByte random i < 256.
Proof.
  apply at_bound, setVersion_bytes, getRandomValues_bytes.
Qed.

(** The characters printed for a run of bytes form a group of hexadecimal
    digits, two per byte. *)
Lemma hexGroup_bytes bs :
  Forall (fun b => b < 256) bs ->
  hexGroup (2 * length bs) (flat_map byteToHex bs).
Proof.
  induction 1 as [|b bs Hb _ [IHl IHf]]; [split; [reflexivity | constructor]|].
  split.
  - cbn [flat_map length app byteToHex]. cbn [length] in *. lia.
  - cbn [flat_map]. apply Forall_app. split; [apply byteToHex_hex, Hb | exact IHf].
Qed.

(** [unsafeStringify] prints an array of bytes in the canonical format. *)
Lemma unsafeStringify_format arr :
  (forall i, at_ arr i < 256) -> canonicalIdFormat (unsafeStringify arr).
Proof.
  intros Hb.
  exists (flat_map byteToHex [at_ arr 0; at_ arr 1; at_ arr 2; at_ arr 3]),
         (flat_map byteToHex [at_ arr 4; at_ arr 5]),
         (flat_map byteToHex [at_ arr 6; at_ arr 7]),
         (flat_map byteToHex [at_ arr 8; at_ arr 9]),
         (flat_map byteToHex [at_ arr 10; at_ arr 11; at_ arr 12; at_ arr 13;
                              at_ arr 14; at_ arr 15]).
  repeat split;
    try (apply (hexGroup_bytes _); repeat constructor; apply Hb).
Qed.

(** Two arrays of bytes print to the same identifier exactly when they
    agree on their first sixteen elements. *)
Lemma unsafeStringify_inj arr arr' :
  (forall i, at_ arr i < 256) -> (forall i, at_ arr' i < 256) ->
  unsafeStringify arr = unsafeStringify arr' <->
  forall i, (i < 16)%nat -> at_ arr i = at_ arr' i.
Proof.
  intros Hb Hb'. split.
  - intros Heq i Hi. unfold unsafeStringify in Heq.
    cbn [byteToHex hyphen app] in Heq.
    injection Heq; intros.
    do 16 (destruct i as [|i];
           [apply byteToHex_inj; [apply Hb | apply Hb' | unfold byteToHex; congruence]|]).
    lia.
  - intros Hagree. unfold unsafeStringify.
    rewrite !(Hagree _) by lia. reflexivity.
Qed.

End UuidFacts.

(** ** Creating records *)
Section Creation.

Lemma v4_format random : canonicalIdFormat (Uuid.v4 random).
Proof.
  apply UuidFacts.unsafeStringify_format. intros i. apply UuidFacts.uuidByte_bound.
Qed.

Lemma v4_eq_iff random random' :
  Uuid.v4 random' = Uuid.v4 random <->
  forall i, (i < 16)%nat -> uuidByte random' i = uuidByte random i.
Proof.
  apply UuidFacts.unsafeStringify_inj; intros i; apply UuidFacts.uuidByte_bound.
Qed.

(** C3 (amended).  For every valid DataItem payload, [addDataItem] returns
    [Ok] with a record whose id has the canonical 8-4-4-4-12 hexadecimal
    format, whose seller is the caller and whose other fields are the
    payload's, and that record is stored under that id.  The id is printed
    from sixteen random bytes, with the version and variant bits set, and
    is not compared with any id generated or stored before: it equals the
    id printed from other random draws exactly when the sixteen bytes
    coincide, and the record is stored under it whatever the store held
    there. *)
Theorem addDataItem_creates_record (caller : Principal.t) (random : nat -> N)
    (payload : DataItemPayload.t) (st : State) :
  validateDataItemPayload payload = [] ->
  exists data,
    addDataItem caller random payload st =
      (Ok data, setDataItems st (<[DataItem.id data := data]> (DataItemsStorage st))) /\
    DataItemsStorage (snd (addDataItem caller random payload st)) !! DataItem.id data
      = Some data /\
    canonicalIdFormat (DataItem.id data) /\
    DataItem.seller data = caller /\
    DataItem.title data = DataItemPayload.title payload /\
    DataItem.description data = DataItemPayload.description payload /\
    DataItem.price data = DataItemPayload.price payload /\
    DataItem.attachmentURL data = DataItemPayload.attachmentURL payload /\
    DataItem.dataFormat data = DataItemPayload.dataFormat payload /\
    DataItem.status data = DataItemPayload.status payload /\
    DataItem.quality data = DataItemPayload.quality payload /\
    DataItem.rating data = DataItemPayload.rating payload /\
    DataItem.id data = Uuid.v4 random /\
    (forall random',
       Uuid.v4 random' = DataItem.id data <->
       forall i, (i < 16)%nat -> uuidByte random' i = uuidByte random i).
Proof.
  intros Hp. exists (newDataItem (Uuid.v4 random) caller payload).
  unfold addDataItem, StableBTreeMap.insert.
  rewrite (valid_payload_passes _ Hp).
  cbn [noKeys DataItemPayload.keys length Nat.eqb snd fst newDataItem DataItem.id
       DataItem.seller DataItem.title DataItem.description DataItem.price
       DataItem.attachmentURL DataItem.dataFormat DataItem.status DataItem.quality
       DataItem.rating setDataItems DataItemsStorage].
  split; [reflexivity|].
  split; [apply lookup_insert_eq|].
  split; [apply v4_format|].
  repeat (split; [reflexivity|]).
  intros random'. apply v4_eq_iff.
Qed.

End Creation.

(** ** Concrete runs

    The methods evaluated on explicit inputs, with case conversion
    restricted to ASCII. *)
Module Runs.
Import JS Sample.

#[local] Existing Instance AsciiCase.

Ltac run := vm_compute; reflexivity.
Ltac differ := let E := fresh "E" in intros E; vm_compute in E; discriminate E.

(** *** Built-ins *)

Example trim_run : trim (lit "  a b  ") = lit "a b".
Proof. run. Qed.

Example isInvalidString_run :
  isInvalidString (lit "   ") = true /\ isInvalidString (lit " x ") = false.
Proof. split; run. Qed.

Example Number_run :
  Number 12345 = 12345%Z /\ Number (2 ^ 53 + 1) = (2 ^ 53)%Z /\
  Number (2 ^ 53 + 3) = (2 ^ 53 + 4)%Z /\ Number (2 ^ 64 - 1) = (2 ^ 64)%Z.
Proof. repeat split; run. Qed.

Example isValidUuid_run :
  isValidUuid id1 = true /\ isValidUuid id2 = true /\
  isValidUuid notAUuid = false /\
  isValidUuid (id1 ++ lit "0") = false /\
  isValidUuid (lit "123e4567-e89b-42d3-a456-42661417400g") = false /\
  isValidUuid (lit "123e4567e89b-42d3-a456-4266141740000") = false.
Proof. repeat split; run. Qed.

Example v4_run : Uuid.v4 draws = lit "0b30557a-9fc4-490e-b358-7da2c7ec1136".
Proof. run. Qed.

Example validateDataItemPayload_run :
  validateDataItemPayload
    {| DataItemPayload.title := lit " ";
       DataItemPayload.description := lit "CSV file";
       DataItemPayload.price := 0;
       DataItemPayload.attachmentURL := lit "";
       DataItemPayload.dataFormat := lit "csv";
       DataItemPayload.status := lit "active";
       DataItemPayload.quality := lit "high";
       DataItemPayload.rating := 5 |}
  = [ lit "title=' ' cannot be empty.";
      lit "attachmentURL='' cannot be empty.";
      lit "price='0' must be greater than zero." ].
Proof. run. Qed.

Example searchDataItem_run :
  List.map DataItem.id (searchDataItem (lit "foo") market) = [id2; id4] /\
  List.map DataItem.id (filterDataItem (lit "json") market) = [id2; id4] /\
  List.map DataItem.id (getDataItems market) = [id3; id1; id2; id4].
Proof. repeat split; run. Qed.

(** *** Validation *)

Lemma validators_collect_all_violations_run :
  validateDataItemPayload blanks =
    [ emptyError "description" [10]; emptyError "quality" [160];
      emptyError "title" [32; 9]; emptyError "attachmentURL" [];
      lit "price='0' must be greater than zero." ] /\
  validateDataItemPayload datasetA = [] /\
  validatePurchaserPayload blankBuyer = [ lit "name='  ' cannot be empty." ] /\
  validatePurchaserPayload buyer = [].
Proof.
  destruct validators_collect_all_violations as (_ & Hd & Hp).
  destruct (Hd blanks) as (_ & Eblanks & _).
  destruct (Hd datasetA) as (Hvalid & _).
  destruct (Hp blankBuyer) as (_ & Ebuyer & _).
  destruct (Hp buyer) as (Hbuyer & _).
  refine (conj _ (conj _ (conj _ _))).
  - rewrite Eblanks. run.
  - apply Hvalid. repeat split; try run. differ.
  - rewrite Ebuyer. run.
  - apply Hbuyer. repeat split; try run. differ.
Defined.

(** *** Ownership *)

Lemma not_owner_rejected_run :
  updateDataItem bob id1 datasetB market =
    (Err (AuthenticationFailed (lit "Caller is not the seller of the item.")), market) /\
  updatePurchaser bob id3 buyer market =
    (Err (AuthenticationFailed (lit "Caller is not the purchaser.")), market) /\
  deleteDataItem bob id1 market =
    (Err (AuthenticationFailed (lit "Caller is not the seller of the item.")), market) /\
  deletePurchaser bob id3 market =
    (Err (AuthenticationFailed (lit "Caller is not the purchaser.")), market) /\
  addPurchasedItem bob id3 id1 market =
    (Err (AuthenticationFailed (lit "Caller is not the purchaser.")), market).
Proof.
  destruct (not_owner_rejected_state_unchanged bob market) as (H1 & H2 & H3 & H4 & H5).
  refine (conj _ (conj _ (conj _ (conj _ _)))).
  - apply (H1 id1 datasetB item1); [run | run | run | differ].
  - apply (H2 id3 buyer carol); [run | run | run | differ].
  - apply (H3 id1 item1); [run | run | differ].
  - apply (H4 id3 carol); [run | run | differ].
  - apply (H5 id3 id1 carol); [run | run | run | differ].
Defined.

Lemma update_keeps_id_and_owner_run :
  (exists updated,
     fst (updateDataItem alice id1 datasetB market) = Ok updated /\
     DataItem.id updated = id1 /\ DataItem.seller updated = alice /\
     DataItem.title updated = lit "Weather" /\
     DataItemsStorage (snd (updateDataItem alice id1 datasetB market)) !! id1
       = Some updated /\
     getDataItem id1 (snd (updateDataItem alice id1 datasetB market)) = Ok updated /\
     DataItemsStorage (snd (updateDataItem alice id1 datasetB market)) !! id2
       = Some item2) /\
  (exists updated,
     fst (updatePurchaser alice id3 newBuyer market) = Ok updated /\
     Purchaser.id updated = id3 /\ Purchaser.owner updated = alice /\
     Purchaser.name updated = lit "Dave" /\
     Purchaser.purchasedItem updated = [id1] /\
     purchasersStorage (snd (updatePurchaser alice id3 newBuyer market)) !! id3
       = Some updated /\
     getPurchaser id3 (snd (updatePurchaser alice id3 newBuyer market)) = Ok updated).
Proof.
  destruct (update_keeps_id_and_owner alice market) as (H1 & H2 & _ & _).
  split.
  - destruct (H1 id1 datasetB item1)
      as (u & E & Hid & Hs & Ht & _ & _ & _ & _ & _ & _ & _ & Hst & Hg & Hk & _);
      [run | run | run | run |].
    exists u. rewrite E at 1.
    refine (conj eq_refl (conj Hid (conj Hs (conj Ht (conj Hst (conj Hg _)))))).
    rewrite Hk by differ. run.
  - destruct (H2 id3 newBuyer carol)
      as (u & E & Hid & Ho & Hn & _ & _ & Hi & Hst & Hg & _);
      [run | run | run | run |].
    exists u. rewrite E at 1.
    exact (conj eq_refl (conj Hid (conj Ho (conj Hn (conj Hi (conj Hst Hg)))))).
Defined.

(** *** Creation *)

Lemma addDataItem_creates_record_run :
  exists data,
    fst (addDataItem alice draws datasetA initState) = Ok data /\
    DataItem.id data = lit "0b30557a-9fc4-490e-b358-7da2c7ec1136" /\
    DataItem.seller data = alice /\
    DataItemsStorage (snd (addDataItem alice draws datasetA initState))
      !! DataItem.id data = Some data.
Proof.
  destruct (addDataItem_creates_record alice draws datasetA initState)
    as (data & E & Hstored & _ & Hseller & _ & _ & _ & _ & _ & _ & _ & _ & Hid & _);
    [run|].
  exists data. rewrite E at 1.
  refine (conj eq_refl (conj _ (conj Hseller Hstored))).
  rewrite Hid. run.
Defined.

(** The same draws give the same id: the second record takes the place
    of the first. *)
Lemma addDataItem_id_repeats :
  exists first second st1 st2,
    addDataItem alice draws datasetA initState = (Ok first, st1) /\
    addDataItem bob draws datasetB st1 = (Ok second, st2) /\
    DataItem.id second = DataItem.id first /\
    DataItemsStorage st1 !! DataItem.id first = Some first /\
    DataItemsStorage st2 !! DataItem.id first = Some second /\
    DataItem.seller first = alice /\ DataItem.seller second = bob /\
    getDataItems st2 = [second].
Proof.
  exists (newDataItem (Uuid.v4 draws) alice datasetA),
         (newDataItem (Uuid.v4 draws) bob datasetB),
         (snd (addDataItem alice draws datasetA initState)),
         (snd (addDataItem bob draws datasetB
                 (snd (addDataItem alice draws datasetA initState)))).
  repeat split; run.
Qed.

(** *** Malformed and absent ids *)

Lemma getDataItem_malformed_run :
  getDataItem notAUuid market = Err (badIdMessage "Id" notAUuid) /\
  resultKind (getDataItem notAUuid market) = None /\
  getDataItem notAUuid market <> Err (lit "Data Item not found").
Proof.
  destruct (isValidUuid_canonical_getDataItem_malformed notAUuid) as [Hiff Hbad].
  apply Hbad. intros Hc. apply Hiff in Hc. vm_compute in Hc. discriminate Hc.
Defined.

(** The error of [getDataItem] for a malformed id is a bare string; the
    update methods tag the same message with [InvalidPayload]. *)
Lemma getDataItem_malformed_untagged :
  getDataItem notAUuid initState =
    Err (lit "Id=" ++ dquote ++ lit "not-a-uuid" ++ dquote ++
         lit " is not in the valid uuid format.") /\
  resultKind (getDataItem notAUuid initState) = None /\
  resultKind (fst (deleteDataItem alice notAUuid initState)) = Some KInvalidPayload.
Proof. repeat split; run. Qed.

Lemma deleteDataItem_absent_run :
  deleteDataItem alice id5 market =
    (Err (NotFound (dataItemNotFoundOnDelete id5)), market).
Proof.
  apply (deleteDataItem_absent_NotFound alice id5 market); run.
Defined.

(** An id that is not in the store and is malformed is answered with
    [InvalidPayload], not [NotFound]. *)
Lemma deleteDataItem_malformed_absent :
  DataItemsStorage initState !! notAUuid = None /\
  deleteDataItem alice notAUuid initState =
    (Err (InvalidPayload (badIdMessage "Id" notAUuid)), initState).
Proof. split; run. Qed.

(** *** Purchases *)

(** [id5] is not the id of a listing, and [id1] is purchased already. *)
Lemma addPurchasedItem_appends_run :
  DataItemsStorage market !! id5 = None /\
  (exists stored,
     purchasersStorage (snd (addPurchasedItem alice id3 id5 market)) !! id3 = Some stored /\
     Purchaser.purchasedItem stored = [id1; id5]) /\
  (exists stored,
     purchasersStorage (snd (addPurchasedItem alice id3 id1 market)) !! id3 = Some stored /\
     Purchaser.purchasedItem stored = [id1; id1]).
Proof.
  split; [run|]. split.
  - destruct (addPurchasedItem_appends alice id3 id5 market carol)
      as (stored & E & Hitems & _); [run | run | run | run |].
    exists stored. rewrite E. split; [apply lookup_insert_eq | exact Hitems].
  - destruct (addPurchasedItem_appends alice id3 id1 market carol)
      as (stored & E & Hitems & _); [run | run | run | run |].
    exists stored. rewrite E. split; [apply lookup_insert_eq | exact Hitems].
Defined.

(** *** Search *)

Ltac ascii := unfold isAscii; apply (bool_decide_eq_true_1 _); vm_compute; reflexivity.

(** In the state reached by three creations the listing is by ascending
    id, not in the order of creation; the query [foo] finds the two
    listings that contain it in some case, by ascending id. *)
Lemma search_and_filter_exact_run :
  reachable shop /\
  List.map DataItem.id (getDataItems shop) =
    [ lit "0b30557a-9fc4-490e-b358-7da2c7ec1136";
      lit "4d5a6774-818e-4ba8-b5c2-cfdce9f60310";
      lit "c8237ed9-348f-4a45-a0fb-56b10c67c21d" ] /\
  List.map DataItem.title (searchDataItem (lit "foo") shop) =
    [ lit "Food prices"; lit "Weather" ] /\
  List.map DataItem.dataFormat (filterDataItem (lit "json") shop) =
    [ lit "Json"; lit "JSON" ] /\
  In (newDataItem (Uuid.v4 draws2) bob datasetB) (searchDataItem (lit "foo") shop) /\
  In (newDataItem (Uuid.v4 draws3) alice datasetC) (filterDataItem (lit "JSON") shop) /\
  StronglySorted (fun a b => StableBTreeMap.key_leb a b = true)
    (List.map DataItem.id (searchDataItem (lit "foo") shop)) /\
  NoDup (List.map DataItem.id (searchDataItem (lit "foo") shop)).
Proof.
  assert (Hr : reachable shop) by (do 3 apply reachable_step; apply reachable_init).
  destruct (search_and_filter_exact (lit "foo") shop)
    as (_ & _ & _ & _ & _ & _ & _ & _ & Hascii & Hord).
  destruct (search_and_filter_exact (lit "JSON") shop)
    as (_ & _ & _ & _ & _ & _ & _ & _ & Hascii' & _).
  destruct (Hord Hr) as (Hsorted & Hnodup & _).
  destruct (Hascii (fun s _ => eq_refl) ltac:(ascii)
              (newDataItem (Uuid.v4 draws2) bob datasetB)) as (Hfound & _).
  destruct (Hascii' (fun s _ => eq_refl) ltac:(ascii)
              (newDataItem (Uuid.v4 draws3) alice datasetC)) as (_ & Hformat).
  refine (conj Hr (conj _ (conj _ (conj _ (conj _ (conj _ (conj Hsorted Hnodup))))))).
  - run.
  - run.
  - run.
  - apply Hfound; [ascii | ascii |]. split.
    + exists (Uuid.v4 draws2). run.
    + right. exists (lit "Hourly "), (lit "FOO"), (lit " readings").
      split; [reflexivity|].
      apply map_asciiLower_eq. run.
  - apply Hformat; [ascii|]. split.
    + exists (Uuid.v4 draws3). run.
    + exists [], (lit "Json"), []. split; [reflexivity|].
      apply map_asciiLower_eq. run.
Defined.

(** With the lower-casing of Greek letters, the listing titled by a
    capital alpha and a capital sigma holds the query, a capital sigma,
    verbatim, and is not found: its lower-cased title ends in the final
    small sigma while the lower-cased query is the ordinary one. *)
Lemma searchDataItem_misses_final_sigma :
  occursIn sigma (DataItemPayload.title sigmaListing) /\
  List.map DataItem.title (getDataItems sigmaShop) = [DataItemPayload.title sigmaListing] /\
  toLowerCase (Unicode := GreekCase) (DataItemPayload.title sigmaListing) = [945; 962] /\
  toLowerCase (Unicode := GreekCase) sigma = [963] /\
  searchDataItem (H := GreekCase) sigma sigmaShop = [].
Proof.
  split; [exists [913], []; reflexivity|].
  repeat split; run.
Qed.

(** *** Pagination *)

Lemma getMoreDataItems_run :
  length (getDataItems market) = 4%nat /\
  getMoreDataItems 5 3 market = [] /\
  List.map DataItem.id (getMoreDataItems 1 2 market) = [id1; id2].
Proof.
  split; [run|]. split.
  - destruct (getMoreDataItems_slice 5 3 market) as (_ & _ & _ & Hempty); [run|].
    apply Hempty. vm_compute. lia.
  - destruct (getMoreDataItems_slice 1 2 market) as (E & _); [run|].
    rewrite E. run.
Defined.

(** *** The key invariant *)

Lemma id_is_key_run :
  keyed_by_id (step alice (CallAddDataItem draws datasetA) initState) /\
  fst (deleteDataItem alice (Uuid.v4 draws)
         (step alice (CallAddDataItem draws datasetA) initState))
    = Ok (Uuid.v4 draws).
Proof.
  destruct id_is_key_invariant as (Hinit & Hstep & _ & Hdel & _).
  pose proof (Hstep alice (CallAddDataItem draws datasetA) initState Hinit) as Hinv.
  split; [exact Hinv|].
  destruct (deleteDataItem alice (Uuid.v4 draws)
              (step alice (CallAddDataItem draws datasetA) initState))
    as [[deleted | e] st'] eqn:E.
  - cbn [fst]. rewrite (Hdel _ _ _ _ _ Hinv E). reflexivity.
  - exfalso. vm_compute in E. discriminate E.
Defined.

End Runs.

(** ** Further properties of the methods *)
Section Lookups.
Context `{JS.Unicode}.
Import JS.

(** A generated identifier passes the validator. *)
Lemma isValidUuid_v4 random : isValidUuid (Uuid.v4 random) = true.
Proof. apply isValidUuid_format, v4_format. Qed.

(** X1.  A record created by [addDataItem] can be read back: for a valid
    payload the call returns [Ok] with a record, and in the state it
    leaves, [getDataItem] on that record's id returns that very record,
    which is also among the records [getDataItems] lists. *)
Theorem addDataItem_then_getDataItem (caller : Principal.t) (random : nat -> N)
    (payload : DataItemPayload.t) (st : State) :
  validateDataItemPayload payload = [] ->
  exists data st',
    addDataItem caller random payload st = (Ok data, st') /\
    getDataItem (DataItem.id data) st' = Ok data /\
    In data (getDataItems st').
Proof.
  intros Hp.
  exists (newDataItem (Uuid.v4 random) caller payload),
         (setDataItems st
            (<[Uuid.v4 random := newDataItem (Uuid.v4 random) caller payload]>
               (DataItemsStorage st))).
  split; [|split].
  - unfold addDataItem, StableBTreeMap.insert.
    rewrite (valid_payload_passes _ Hp). reflexivity.
  - unfold getDataItem, StableBTreeMap.get.
    cbn [newDataItem DataItem.id setDataItems DataItemsStorage].
    rewrite isValidUuid_v4, lookup_insert_eq. reflexivity.
  - unfold getDataItems. apply values_In. exists (Uuid.v4 random).
    cbn [setDataItems DataItemsStorage]. apply lookup_insert_eq.
Qed.

(** X2.  For a valid payload [addPurchaser] returns [Ok] with a purchaser
    whose id has the canonical format, whose owner is the caller, whose
    name, price and message are the payload's and whose [purchasedItem] is
    empty; the purchaser is stored under its id, the DataItems store is
    untouched, and [getPurchaser] on that id returns it. *)
Theorem addPurchaser_creates_record (caller : Principal.t) (random : nat -> N)
    (payload : PurchaserPayload.t) (st : State) :
  validatePurchaserPayload payload = [] ->
  exists purchaser st',
    addPurchaser caller random payload st = (Ok purchaser, st') /\
    canonicalIdFormat (Purchaser.id purchaser) /\
    Purchaser.id purchaser = Uuid.v4 random /\
    Purchaser.owner purchaser = caller /\
    Purchaser.name purchaser = PurchaserPayload.name payload /\
    Purchaser.price purchaser = PurchaserPayload.price payload /\
    Purchaser.message purchaser = PurchaserPayload.message payload /\
    Purchaser.purchasedItem purchaser = [] /\
    purchasersStorage st' = <[Purchaser.id purchaser := purchaser]> (purchasersStorage st) /\
    DataItemsStorage st' = DataItemsStorage st /\
    getPurchaser (Purchaser.id purchaser) st' = Ok purchaser.
Proof.
  intros Hp.
  exists (newPurchaser (Uuid.v4 random) caller payload),
         (setPurchasers st
            (<[Uuid.v4 random := newPurchaser (Uuid.v4 random) caller payload]>
               (purchasersStorage st))).
  split.
  { unfold addPurchaser, StableBTreeMap.insert.
    rewrite (valid_payload_passes _ Hp). reflexivity. }
  split; [apply v4_format|].
  do 8 (split; [reflexivity|]).
  unfold getPurchaser, StableBTreeMap.get.
  cbn [newPurchaser Purchaser.id setPurchasers purchasersStorage].
  rewrite isValidUuid_v4, lookup_insert_eq. reflexivity.
Qed.

(** X10.  [getDataItems] and [getPurchasers] list exactly the stored
    records, as many as the stores hold.  In every reachable state the
    listed records have pairwise distinct ids, and a record returned by
    [getDataItem] (resp. [getPurchaser]) carries the id that was asked for
    and is one of the listed records. *)
Theorem listings_match_stores (st : State) :
  (forall data, In data (getDataItems st) <-> exists k, DataItemsStorage st !! k = Some data) /\
  (forall purchaser,
     In purchaser (getPurchasers st) <-> exists k, purchasersStorage st !! k = Some purchaser) /\
  length (getDataItems st) = size (DataItemsStorage st) /\
  length (getPurchasers st) = size (purchasersStorage st) /\
  (reachable st ->
   NoDup (List.map DataItem.id (getDataItems st)) /\
   NoDup (List.map Purchaser.id (getPurchasers st)) /\
   (forall id data,
      getDataItem id st = Ok data -> DataItem.id data = id /\ In data (getDataItems st)) /\
   (forall id purchaser,
      getPurchaser id st = Ok purchaser ->
      Purchaser.id purchaser = id /\ In purchaser (getPurchasers st))).
Proof.
  split; [intros data; apply values_In|].
  split; [intros purchaser; apply values_In|].
  split; [apply values_length|].
  split; [apply values_length|].
  intros Hreach. destruct (keyed_by_id_reachable st Hreach) as [Hd Hp].
  split; [apply values_keys_NoDup, Hd|].
  split; [apply values_keys_NoDup, Hp|].
  split.
  - intros id data Hget. unfold getDataItem, StableBTreeMap.get in Hget.
    destruct (negb (isValidUuid id)); [discriminate|].
    destruct (DataItemsStorage st !! id) as [d|] eqn:E; [|discriminate].
    injection Hget as ->. split; [apply Hd, E | apply values_In; eauto].
  - intros id purchaser Hget. unfold getPurchaser, StableBTreeMap.get in Hget.
    destruct (negb (isValidUuid id)); [discriminate|].
    destruct (purchasersStorage st !! id) as [p|] eqn:E; [|discriminate].
    injection Hget as ->. split; [apply Hp, E | apply values_In; eauto].
Qed.

End Lookups.

(** ** Rejections *)
Section Rejections.
Context `{JS.Unicode}.
Import JS.

Lemma occursIn_refl (e : text) : occursIn e e.
Proof. exists [], []. rewrite app_nil_r. reflexivity. Qed.

Lemma occursIn_app (e pre whole post : text) :
  occursIn e whole -> occursIn e (pre ++ whole ++ post).
Proof.
  intros (a & b & ->). exists (pre ++ a), (b ++ post).
  rewrite <- !app_assoc. reflexivity.
Qed.

(** Every element of an array occurs in the string it is joined to. *)
Lemma join_occursIn (sep e : text) (l : list text) :
  In e l -> occursIn e (join sep l).
Proof.
  induction l as [|x l IH]; [intros []|].
  intros Hin. cbn [join]. destruct l as [|y l].
  - destruct Hin as [<- | []]. apply occursIn_refl.
  - destruct Hin as [<- | Hin].
    + exists [], (sep ++ join sep (y :: l)). reflexivity.
    + destruct (IH Hin) as (a & b & E). rewrite E.
      exists (x ++ sep ++ a), b. rewrite <- !app_assoc. reflexivity.
Qed.

Lemma invalid_payload_fails (errors : list text) (e : text) :
  In e errors -> negb (length errors =? 0)%nat = true.
Proof. destruct errors; [intros [] | reflexivity]. Qed.

Lemma invalidPayloadMessage_occursIn (errors : list text) (e : text) :
  In e errors -> occursIn e (invalidPayloadMessage errors).
Proof.
  intros Hin. unfold invalidPayloadMessage, Array_toString.
  apply occursIn_app, join_occursIn, Hin.
Qed.

Lemma title_error_reported (payload : DataItemPayload.t) :
  isInvalidString (DataItemPayload.title payload) = true ->
  In (emptyError "title" (DataItemPayload.title payload))
     (validateDataItemPayload payload).
Proof.
  intros Ht. unfold validateDataItemPayload, pushIf. rewrite Ht.
  destruct (isInvalidString (DataItemPayload.description payload)),
           (isInvalidString (DataItemPayload.quality payload)),
           (isInvalidString (DataItemPayload.attachmentURL payload)),
           (DataItemPayload.price payload =? 0);
    cbn [app]; rewrite ?in_app_iff; cbn [In]; auto 10.
Qed.

(** X3.  An invalid payload is answered with [InvalidPayload], the state
    being left as it was, and every error the validator found occurs in
    the message: this holds of [addDataItem] and [addPurchaser], and of
    [updateDataItem] and [updatePurchaser] when the id is well-formed
    (whether or not a record is stored under it, and whoever calls).  In
    particular a payload whose title is empty or white space makes
    [addDataItem] answer with a message that contains the title error. *)
Theorem invalid_payload_reported (caller : Principal.t) (random : nat -> N) (st : State) :
  (forall payload e,
     In e (validateDataItemPayload payload) ->
     exists m, addDataItem caller random payload st = (Err (InvalidPayload m), st) /\
               occursIn e m) /\
  (forall payload e,
     In e (validatePurchaserPayload payload) ->
     exists m, addPurchaser caller random payload st = (Err (InvalidPayload m), st) /\
               occursIn e m) /\
  (forall id payload e,
     isValidUuid id = true ->
     In e (validateDataItemPayload payload) ->
     exists m, updateDataItem caller id payload st = (Err (InvalidPayload m), st) /\
               occursIn e m) /\
  (forall id payload e,
     isValidUuid id = true ->
     In e (validatePurchaserPayload payload) ->
     exists m, updatePurchaser caller id payload st = (Err (InvalidPayload m), st) /\
               occursIn e m) /\
  (forall payload,
     isInvalidString (DataItemPayload.title payload) = true ->
     exists m, addDataItem caller random payload st = (Err (InvalidPayload m), st) /\
               occursIn (emptyError "title" (DataItemPayload.title payload)) m).
Proof.
  assert (Hadd : forall payload e,
            In e (validateDataItemPayload payload) ->
            exists m, addDataItem caller random payload st = (Err (InvalidPayload m), st) /\
                      occursIn e m).
  { intros payload e Hin.
    exists (invalidPayloadMessage (validateDataItemPayload payload)).
    split; [|apply invalidPayloadMessage_occursIn, Hin].
    unfold addDataItem. rewrite (invalid_payload_fails _ _ Hin). reflexivity. }
  split; [exact Hadd|]. split; [|split; [|split]].
  - intros payload e Hin.
    exists (invalidPayloadMessage (validatePurchaserPayload payload)).
    split; [|apply invalidPayloadMessage_occursIn, Hin].
    unfold addPurchaser. rewrite (invalid_payload_fails _ _ Hin). reflexivity.
  - intros id payload e Hid Hin.
    exists (invalidPayloadMessage (validateDataItemPayload payload)).
    split; [|apply invalidPayloadMessage_occursIn, Hin].
    unfold updateDataItem. rewrite Hid, (invalid_payload_fails _ _ Hin). reflexivity.
  - intros id payload e Hid Hin.
    exists (invalidPayloadMessage (validatePurchaserPayload payload)).
    split; [|apply invalidPayloadMessage_occursIn, Hin].
    unfold updatePurchaser. rewrite Hid, (invalid_payload_fails _ _ Hin). reflexivity.
  - intros payload Ht. apply Hadd, title_error_reported, Ht.
Qed.

(** X4.  A malformed id is rejected before anything else is looked at:
    whatever the payload, the store and the caller, [updateDataItem],
    [updatePurchaser], [deleteDataItem] and [deletePurchaser] return
    [InvalidPayload] with the malformed-id message and leave the state as
    it was; [addPurchasedItem] does so for a malformed [purchaserId], and
    for a malformed [itemId] once the [purchaserId] is well-formed;
    [getPurchaser] returns the same message as a plain text error. *)
Theorem malformed_id_rejected_first (caller : Principal.t) (id : text) (st : State) :
  isValidUuid id = false ->
  (forall payload,
     updateDataItem caller id payload st =
       (Err (InvalidPayload (badIdMessage "Id" id)), st)) /\
  (forall payload,
     updatePurchaser caller id payload st =
       (Err (InvalidPayload (badIdMessage "Id" id)), st)) /\
  deleteDataItem caller id st = (Err (InvalidPayload (badIdMessage "Id" id)), st) /\
  deletePurchaser caller id st = (Err (InvalidPayload (badIdMessage "Id" id)), st) /\
  (forall itemId,
     addPurchasedItem caller id itemId st =
       (Err (InvalidPayload (badIdMessage "purchaserId" id)), st)) /\
  (forall purchaserId,
     isValidUuid purchaserId = true ->
     addPurchasedItem caller purchaserId id st =
       (Err (InvalidPayload (badIdMessage "itemId" id)), st)) /\
  getPurchaser id st = Err (badIdMessage "Id" id).
Proof.
  intros Hid.
  split; [intros payload; unfold updateDataItem; rewrite Hid; reflexivity|].
  split; [intros payload; unfold updatePurchaser; rewrite Hid; reflexivity|].
  split; [unfold deleteDataItem; rewrite Hid; reflexivity|].
  split; [unfold deletePurchaser; rewrite Hid; reflexivity|].
  split; [intros itemId; unfold addPurchasedItem; rewrite Hid; reflexivity|].
  split.
  - intros purchaserId Hpid. unfold addPurchasedItem. rewrite Hpid, Hid. reflexivity.
  - unfold getPurchaser. rewrite Hid. reflexivity.
Qed.

(** X5.  A well-formed id under which nothing is stored is answered with
    [NotFound], whoever calls, and the state is left as it was:
    [updateDataItem] (with a valid payload) on the DataItems store;
    [updatePurchaser] (with a valid payload), [deletePurchaser] and
    [addPurchasedItem] (with a well-formed item id) on the purchasers
    store.  The lookups [getDataItem] and [getPurchaser] return their
    not-found text. *)
Theorem absent_id_NotFound (caller : Principal.t) (id : text) (st : State) :
  isValidUuid id = true ->
  (DataItemsStorage st !! id = None ->
   (forall payload,
      validateDataItemPayload payload = [] ->
      updateDataItem caller id payload st = (Err (NotFound (lit "Data not found")), st)) /\
   getDataItem id st = Err (lit "Data Item not found")) /\
  (purchasersStorage st !! id = None ->
   (forall payload,
      validatePurchaserPayload payload = [] ->
      updatePurchaser caller id payload st =
        (Err (NotFound (lit "Purchaser not found")), st)) /\
   deletePurchaser caller id st = (Err (NotFound (purchaserNotFoundOnDelete id)), st) /\
   (forall itemId,
      isValidUuid itemId = true ->
      addPurchasedItem caller id itemId st =
        (Err (NotFound (lit "Purchaser not found")), st)) /\
   getPurchaser id st = Err (lit "Purchaser not found")).
Proof.
  intros Hid. split; intros Hnone.
  - split.
    + intros payload Hp. unfold updateDataItem, StableBTreeMap.get.
      rewrite Hid, (valid_payload_passes _ Hp), Hnone. reflexivity.
    + unfold getDataItem, StableBTreeMap.get. rewrite Hid, Hnone. reflexivity.
  - split; [|split; [|split]].
    + intros payload Hp. unfold updatePurchaser, StableBTreeMap.get.
      rewrite Hid, (valid_payload_passes _ Hp), Hnone. reflexivity.
    + unfold deletePurchaser, StableBTreeMap.get. rewrite Hid, Hnone. reflexivity.
    + intros itemId Hitem. unfold addPurchasedItem, StableBTreeMap.get.
      rewrite Hid, Hitem, Hnone. reflexivity.
    + unfold getPurchaser, StableBTreeMap.get. rewrite Hid, Hnone. reflexivity.
Qed.

(** X6.  When the owner deletes a record stored under a well-formed id,
    [deleteDataItem] returns the record's id and removes exactly that
    record: every other DataItem and the whole purchasers store are as
    before, a later [getDataItem] on the id reports that the item is not
    found, and deleting the id again returns [NotFound].  The same holds
    of [deletePurchaser] on the purchasers store. *)
Theorem delete_removes_record (caller : Principal.t) (id : text) (st : State) :
  isValidUuid id = true ->
  (forall data,
     DataItemsStorage st !! id = Some data ->
     DataItem.seller data = caller ->
     exists st',
       deleteDataItem caller id st = (Ok (DataItem.id data), st') /\
       DataItemsStorage st' !! id = None /\
       (forall k, k <> id -> DataItemsStorage st' !! k = DataItemsStorage st !! k) /\
       purchasersStorage st' = purchasersStorage st /\
       getDataItem id st' = Err (lit "Data Item not found") /\
       deleteDataItem caller id st' = (Err (NotFound (dataItemNotFoundOnDelete id)), st')) /\
  (forall purchaser,
     purchasersStorage st !! id = Some purchaser ->
     Purchaser.owner purchaser = caller ->
     exists st',
       deletePurchaser caller id st = (Ok (Purchaser.id purchaser), st') /\
       purchasersStorage st' !! id = None /\
       (forall k, k <> id -> purchasersStorage st' !! k = purchasersStorage st !! k) /\
       DataItemsStorage st' = DataItemsStorage st /\
       getPurchaser id st' = Err (lit "Purchaser not found") /\
       deletePurchaser caller id st' =
         (Err (NotFound (purchaserNotFoundOnDelete id)), st')).
Proof.
  intros Hid. split.
  - intros data Hget Hown.
    exists (setDataItems st (delete id (DataItemsStorage st))).
    split.
    { unfold deleteDataItem, StableBTreeMap.get, StableBTreeMap.remove.
      rewrite Hid, Hget, (caller_is_owner _ _ Hown). reflexivity. }
    cbn [setDataItems DataItemsStorage purchasersStorage].
    split; [apply lookup_delete_eq|].
    split; [intros k Hk; apply lookup_delete_ne; congruence|].
    split; [reflexivity|].
    split.
    + unfold getDataItem, StableBTreeMap.get. cbn [setDataItems DataItemsStorage].
      rewrite Hid, lookup_delete_eq. reflexivity.
    + unfold deleteDataItem, StableBTreeMap.get. cbn [setDataItems DataItemsStorage].
      rewrite Hid, lookup_delete_eq. reflexivity.
  - intros purchaser Hget Hown.
    exists (setPurchasers st (delete id (purchasersStorage st))).
    split.
    { unfold deletePurchaser, StableBTreeMap.get, StableBTreeMap.remove.
      rewrite Hid, Hget, (caller_is_owner _ _ Hown). reflexivity. }
    cbn [setPurchasers DataItemsStorage purchasersStorage].
    split; [apply lookup_delete_eq|].
    split; [intros k Hk; apply lookup_delete_ne; congruence|].
    split; [reflexivity|].
    split.
    + unfold getPurchaser, StableBTreeMap.get. cbn [setPurchasers purchasersStorage].
      rewrite Hid, lookup_delete_eq. reflexivity.
    + unfold deletePurchaser, StableBTreeMap.get. cbn [setPurchasers purchasersStorage].
      rewrite Hid, lookup_delete_eq. reflexivity.
Qed.

Ltac split_cases :=
  repeat match goal with
         | |- context [if ?b then _ else _] => destruct b eqn:?
         | |- context [match StableBTreeMap.get ?m ?k with _ => _ end] =>
             unfold StableBTreeMap.get; destruct (m !! k) eqn:?
         end.

(** X7.  No update method changes anything when it returns an error:
    whenever the result of [addDataItem], [addPurchaser], [updateDataItem],
    [updatePurchaser], [deleteDataItem], [deletePurchaser] or
    [addPurchasedItem] is [Err], the state after the call is the state
    before it. *)
Theorem error_leaves_state (caller : Principal.t) (st : State) :
  (forall random payload e,
     fst (addDataItem caller random payload st) = Err e ->
     snd (addDataItem caller random payload st) = st) /\
  (forall random payload e,
     fst (addPurchaser caller random payload st) = Err e ->
     snd (addPurchaser caller random payload st) = st) /\
  (forall id payload e,
     fst (updateDataItem caller id payload st) = Err e ->
     snd (updateDataItem caller id payload st) = st) /\
  (forall id payload e,
     fst (updatePurchaser caller id payload st) = Err e ->
     snd (updatePurchaser caller id payload st) = st) /\
  (forall id e,
     fst (deleteDataItem caller id st) = Err e ->
     snd (deleteDataItem caller id st) = st) /\
  (forall id e,
     fst (deletePurchaser caller id st) = Err e ->
     snd (deletePurchaser caller id st) = st) /\
  (forall purchaserId itemId e,
     fst (addPurchasedItem caller purchaserId itemId st) = Err e ->
     snd (addPurchasedItem caller purchaserId itemId st) = st).
Proof.
  split; [|split; [|split; [|split; [|split; [|split]]]]];
    intros until e;
    unfold addDataItem, addPurchaser, updateDataItem, updatePurchaser,
      deleteDataItem, deletePurchaser, addPurchasedItem;
    split_cases; cbn [fst snd]; intros Herr;
    first [reflexivity | discriminate Herr].
Qed.

End Rejections.

(** ** Who can change a record *)
Section Ownership.
Context `{JS.Unicode}.
Import JS.

Ltac run_call H :=
  unfold addDataItem, addPurchaser, updateDataItem, updatePurchaser,
    deleteDataItem, deletePurchaser, addPurchasedItem,
    StableBTreeMap.get, StableBTreeMap.insert, StableBTreeMap.remove in H;
  repeat match type of H with
         | context [if ?b then _ else _] => destruct b eqn:?
         | context [match ?m !! ?k with _ => _ end] => destruct (m !! k) eqn:?
         end;
  cbn [snd setDataItems setPurchasers DataItemsStorage purchasersStorage] in H.

(** X8.  A stored record is changed or removed only by a call of its
    owner, or by a creation whose generated id is the record's key: if the
    DataItem stored under [k] is not stored there any more after an update
    call, then the caller is its seller, or the call is [addDataItem] and
    the id it generated is [k].  The same holds of purchasers, their owner
    and [addPurchaser]. *)
Theorem only_owner_changes_record (caller : Principal.t) (c : Call) (st : State) (k : text) :
  (forall data,
     DataItemsStorage st !! k = Some data ->
     DataItemsStorage (step caller c st) !! k <> Some data ->
     DataItem.seller data = caller \/
     exists random payload, c = CallAddDataItem random payload /\ Uuid.v4 random = k) /\
  (forall purchaser,
     purchasersStorage st !! k = Some purchaser ->
     purchasersStorage (step caller c st) !! k <> Some purchaser ->
     Purchaser.owner purchaser = caller \/
     exists random payload, c = CallAddPurchaser random payload /\ Uuid.v4 random = k).
Proof.
  split.
  - intros data Hget Hchg. destruct c; cbn [step] in Hchg; run_call Hchg;
      try (exfalso; apply Hchg; exact Hget).
    + destruct (decide (Uuid.v4 random = k)) as [Hk | Hk]; [right; eauto|].
      exfalso. apply Hchg. cbn [newDataItem DataItem.id].
      rewrite lookup_insert_ne by exact Hk. exact Hget.
    + destruct (decide (id = k)) as [-> | Hk].
      * left. replace data with t by congruence. apply caller_known. assumption.
      * exfalso. apply Hchg. rewrite lookup_insert_ne by exact Hk. exact Hget.
    + destruct (decide (id = k)) as [-> | Hk].
      * left. replace data with t by congruence. apply caller_known. assumption.
      * exfalso. apply Hchg. rewrite lookup_delete_ne by exact Hk. exact Hget.
  - intros purchaser Hget Hchg. destruct c; cbn [step] in Hchg; run_call Hchg;
      try (exfalso; apply Hchg; exact Hget).
    + destruct (decide (Uuid.v4 random = k)) as [Hk | Hk]; [right; eauto|].
      exfalso. apply Hchg. cbn [newPurchaser Purchaser.id].
      rewrite lookup_insert_ne by exact Hk. exact Hget.
    + destruct (decide (id = k)) as [-> | Hk].
      * left. replace purchaser with t by congruence. apply caller_known. assumption.
      * exfalso. apply Hchg. rewrite lookup_insert_ne by exact Hk. exact Hget.
    + destruct (decide (id = k)) as [-> | Hk].
      * left. replace purchaser with t by congruence. apply caller_known. assumption.
      * exfalso. apply Hchg. rewrite lookup_delete_ne by exact Hk. exact Hget.
    + destruct (decide (purchaserId = k)) as [-> | Hk].
      * left. replace purchaser with t by congruence. apply caller_known. assumption.
      * exfalso. apply Hchg. rewrite lookup_insert_ne by exact Hk. exact Hget.
Qed.

(** X9.  A record that is still stored under its key after an update call
    has kept its id and its seller (resp. owner), and a purchaser's
    [purchasedItem] sequence has only been extended at its end, provided
    the call is not a creation whose generated id is that key. *)
Theorem surviving_record_keeps_owner (caller : Principal.t) (c : Call) (st : State)
    (k : text) :
  (forall data data',
     DataItemsStorage st !! k = Some data ->
     DataItemsStorage (step caller c st) !! k = Some data' ->
     (forall random payload, c = CallAddDataItem random payload -> Uuid.v4 random <> k) ->
     DataItem.id data' = DataItem.id data /\
     DataItem.seller data' = DataItem.seller data) /\
  (forall purchaser purchaser',
     purchasersStorage st !! k = Some purchaser ->
     purchasersStorage (step caller c st) !! k = Some purchaser' ->
     (forall random payload, c = CallAddPurchaser random payload -> Uuid.v4 random <> k) ->
     Purchaser.id purchaser' = Purchaser.id purchaser /\
     Purchaser.owner purchaser' = Purchaser.owner purchaser /\
     Purchaser.purchasedItem purchaser `prefix_of` Purchaser.purchasedItem purchaser').
Proof.
  split.
  - intros data data' Hget Hget' Hfresh.
    destruct c; cbn [step] in Hget'; run_call Hget';
      try (replace data' with data by congruence; split; reflexivity).
    + rewrite lookup_insert_ne in Hget' by (eapply Hfresh; reflexivity).
      replace data' with data by congruence. split; reflexivity.
    + destruct (decide (id = k)) as [-> | Hk].
      * rewrite lookup_insert_eq in Hget'. injection Hget' as <-.
        replace data with t by congruence. split; reflexivity.
      * rewrite lookup_insert_ne in Hget' by exact Hk.
        replace data' with data by congruence. split; reflexivity.
    + apply lookup_delete_Some in Hget' as [_ Hget'].
      replace data' with data by congruence. split; reflexivity.
  - intros purchaser purchaser' Hget Hget' Hfresh.
    destruct c; cbn [step] in Hget'; run_call Hget';
      try (replace purchaser' with purchaser by congruence; repeat split; reflexivity).
    + rewrite lookup_insert_ne in Hget' by (eapply Hfresh; reflexivity).
      replace purchaser' with purchaser by congruence. repeat split; reflexivity.
    + destruct (decide (id = k)) as [-> | Hk].
      * rewrite lookup_insert_eq in Hget'. injection Hget' as <-.
        replace purchaser with t by congruence. repeat split; reflexivity.
      * rewrite lookup_insert_ne in Hget' by exact Hk.
        replace purchaser' with purchaser by congruence. repeat split; reflexivity.
    + apply lookup_delete_Some in Hget' as [_ Hget'].
      replace purchaser' with purchaser by congruence. repeat split; reflexivity.
    + destruct (decide (purchaserId = k)) as [-> | Hk].
      * rewrite lookup_insert_eq in Hget'. injection Hget' as <-.
        replace purchaser with t by congruence.
        repeat split. cbn [pushPurchasedItem Purchaser.purchasedItem].
        apply prefix_app_r. reflexivity.
      * rewrite lookup_insert_ne in Hget' by exact Hk.
        replace purchaser' with purchaser by congruence. repeat split; reflexivity.
Qed.

End Ownership.

(** ** Pages, empty queries and the shape of identifiers *)
Section Pages.
Context `{JS.Unicode}.
Import JS.

Lemma slice_first {A : Type} (l : list A) (n : nat) :
  slice l 0 (Z.of_nat n) = take n l.
Proof.
  unfold slice. cbn [Z.ltb Z.compare].
  destruct (Z.ltb_spec (Z.of_nat n) 0) as [?|_]; [lia|].
  replace (Z.to_nat (Z.min 0 (Z.of_nat (length l)))) with 0%nat by lia.
  rewrite drop_0.
  destruct (Nat.le_gt_cases n (length l)) as [Hle | Hgt].
  - f_equal. lia.
  - rewrite !take_ge by lia. reflexivity.
Qed.

Lemma getMoreDataItems_take_drop (start limit : N) (st : State) :
  (Z.of_nat (length (getDataItems st)) < 2 ^ 32)%Z ->
  getMoreDataItems start limit st
  = take (N.to_nat limit) (drop (N.to_nat start) (getDataItems st)).
Proof.
  intros Hlen. unfold getMoreDataItems, getDataItems in *. cbv zeta.
  apply JSFacts.slice_Number. lia.
Qed.

(** X11.  [getInitialDataItem] returns the first two records of
    [values()], or all of them when there are fewer: at most two records,
    and (for an array below the length limit of JavaScript) the very page
    [getMoreDataItems] returns for start 0 and limit 2. *)
Theorem getInitialDataItem_first_page (st : State) :
  getInitialDataItem st = take 2 (getDataItems st) /\
  (length (getInitialDataItem st) <= 2)%nat /\
  ((length (getDataItems st) <= 2)%nat -> getInitialDataItem st = getDataItems st) /\
  ((Z.of_nat (length (getDataItems st)) < 2 ^ 32)%Z ->
   getInitialDataItem st = getMoreDataItems 0 2 st).
Proof.
  assert (E : getInitialDataItem st = take 2 (getDataItems st)).
  { unfold getInitialDataItem, getDataItems. cbv zeta. apply (slice_first _ 2). }
  rewrite E. split; [reflexivity|].
  split; [rewrite length_take; lia|].
  split; [intros Hle; apply take_ge, Hle|].
  intros Hlen. rewrite (getMoreDataItems_take_drop 0 2 st Hlen). reflexivity.
Qed.

(** X12.  Pages fit together: the page of [l1] records from [start]
    followed by the page of [l2] records from [start + l1] is the page of
    [l1 + l2] records from [start]; and a page from offset 0 whose limit is
    at least the number of stored records is the whole listing.  (The
    array is below the length limit of JavaScript.) *)
Theorem pages_concatenate (start l1 l2 : N) (st : State) :
  (Z.of_nat (length (getDataItems st)) < 2 ^ 32)%Z ->
  getMoreDataItems start l1 st ++ getMoreDataItems (start + l1) l2 st
    = getMoreDataItems start (l1 + l2) st /\
  (forall limit,
     (length (getDataItems st) <= N.to_nat limit)%nat ->
     getMoreDataItems 0 limit st = getDataItems st).
Proof.
  intros Hlen. split.
  - rewrite !getMoreDataItems_take_drop by exact Hlen.
    replace (N.to_nat (start + l1)) with (N.to_nat start + N.to_nat l1)%nat by lia.
    replace (N.to_nat (l1 + l2)) with (N.to_nat l1 + N.to_nat l2)%nat by lia.
    rewrite <- drop_drop. apply take_take_drop.
  - intros limit Hge. rewrite getMoreDataItems_take_drop by exact Hlen.
    cbn [N.to_nat]. rewrite drop_0. apply take_ge, Hge.
Qed.

(** X13.  [isInvalidString] is true exactly of the strings made of white
    space only, the empty string among them; hence a concatenation is
    rejected exactly when both parts are. *)
Theorem isInvalidString_whitespace_only (s t : text) :
  (isInvalidString s = true <-> Forall (fun c => isWhiteSpace c = true) s) /\
  isInvalidString [] = true /\
  isInvalidString (s ++ t) = isInvalidString s && isInvalidString t.
Proof.
  split; [apply isInvalidString_whitespace|].
  split; [reflexivity|].
  apply eq_true_iff_eq.
  rewrite andb_true_iff, !isInvalidString_whitespace. apply Forall_app.
Qed.

Lemma filter_all {A : Type} (f : A -> bool) (l : list A) :
  (forall x, f x = true) -> List.filter f l = l.
Proof.
  intros Hf. induction l as [|x l IH]; [reflexivity|].
  cbn [List.filter]. rewrite Hf, IH. reflexivity.
Qed.

(** X14.  With an empty query both [searchDataItem] and [filterDataItem]
    return every stored record, in the order of [values()].  (Lower-casing
    the empty string gives the empty string.) *)
Theorem empty_query_matches_all (st : State) :
  toLowerCase [] = [] ->
  searchDataItem [] st = getDataItems st /\
  filterDataItem [] st = getDataItems st.
Proof.
  intros Hlow. split.
  - unfold searchDataItem, getDataItems. cbv zeta. apply filter_all.
    intros datum. unfold titleOrDescriptionMatches. rewrite Hlow.
    destruct (toLowerCase (DataItem.title datum)); reflexivity.
  - unfold filterDataItem, getDataItems. cbv zeta. apply filter_all.
    intros datum. unfold dataFormatMatches. rewrite Hlow.
    destruct (toLowerCase (DataItem.dataFormat datum)); reflexivity.
Qed.

Ltac explode g :=
  repeat (destruct g as [|? g]; [discriminate|]);
  destruct g; [|discriminate].

(** X15.  Every id the validator accepts has exactly 36 code units, with
    hyphens at the indices 8, 13, 18 and 23 and nowhere else: all other
    code units are hexadecimal digits. *)
Theorem valid_id_shape (id : text) :
  isValidUuid id = true ->
  length id = 36%nat /\
  (forall i c,
     id !! i = Some c ->
     if bool_decide (i = 8 \/ i = 13 \/ i = 18 \/ i = 23)%nat
     then c = 45 else isHexDigit c = true).
Proof.
  intros Hv. apply isValidUuid_format in Hv.
  destruct Hv as (g1 & g2 & g3 & g4 & g5 & [L1 F1] & [L2 F2] & [L3 F3]
                  & [L4 F4] & [L5 F5] & ->).
  split.
  - rewrite !length_app, L1, L2, L3, L4, L5. reflexivity.
  - explode g1. explode g2. explode g3. explode g4. explode g5.
    repeat match goal with
           | F : Forall _ (_ :: _) |- _ => inversion F; clear F; subst
           | F : Forall _ [] |- _ => clear F
           end.
    intros i c Hi. cbn [app Uuid.hyphen] in Hi.
    do 36 (destruct i as [|i]; [injection Hi as <-; cbn; first [reflexivity | assumption]|]).
    discriminate Hi.
Qed.

End Pages.

(** ** How the methods compose *)
Section Composition.
Context `{JS.Unicode}.
Import JS.

(** X16.  After a successful [updateDataItem], [getDataItem] on the id
    returns the updated record; every other DataItem, the purchasers store
    and the number of listed records are as before; and repeating the call
    with the same payload returns the same record and changes nothing.
    The same holds of [updatePurchaser] and [getPurchaser]. *)
Theorem update_then_get (caller : Principal.t) (id : text) (st : State) :
  isValidUuid id = true ->
  (forall payload data,
     validateDataItemPayload payload = [] ->
     DataItemsStorage st !! id = Some data ->
     DataItem.seller data = caller ->
     exists updated st',
       updateDataItem caller id payload st = (Ok updated, st') /\
       getDataItem id st' = Ok updated /\
       (forall k, k <> id -> DataItemsStorage st' !! k = DataItemsStorage st !! k) /\
       purchasersStorage st' = purchasersStorage st /\
       length (getDataItems st') = length (getDataItems st) /\
       updateDataItem caller id payload st' = (Ok updated, st')) /\
  (forall payload purchaser,
     validatePurchaserPayload payload = [] ->
     purchasersStorage st !! id = Some purchaser ->
     Purchaser.owner purchaser = caller ->
     exists updated st',
       updatePurchaser caller id payload st = (Ok updated, st') /\
       getPurchaser id st' = Ok updated /\
       (forall k, k <> id -> purchasersStorage st' !! k = purchasersStorage st !! k) /\
       DataItemsStorage st' = DataItemsStorage st /\
       length (getPurchasers st') = length (getPurchasers st) /\
       updatePurchaser caller id payload st' = (Ok updated, st')).
Proof.
  intros Hid. split.
  - intros payload data Hp Hget Hown.
    exists (mergeDataItem data payload),
           (setDataItems st (<[id := mergeDataItem data payload]> (DataItemsStorage st))).
    split.
    { unfold updateDataItem, StableBTreeMap.get, StableBTreeMap.insert.
      rewrite Hid, (valid_payload_passes _ Hp), Hget, (caller_is_owner _ _ Hown).
      reflexivity. }
    split.
    { unfold getDataItem, StableBTreeMap.get. cbn [setDataItems DataItemsStorage].
      rewrite Hid, lookup_insert_eq. reflexivity. }
    split; [intros k Hk; cbn [setDataItems DataItemsStorage];
            apply lookup_insert_ne; congruence|].
    split; [reflexivity|].
    split.
    { unfold getDataItems. rewrite !values_length. cbn [setDataItems DataItemsStorage].
      apply map_size_insert_Some. eauto. }
    unfold updateDataItem, StableBTreeMap.get, StableBTreeMap.insert.
    cbn [setDataItems DataItemsStorage purchasersStorage].
    rewrite Hid, (valid_payload_passes _ Hp), lookup_insert_eq.
    cbn [mergeDataItem DataItem.seller]. rewrite (caller_is_owner _ _ Hown).
    rewrite insert_insert_eq. reflexivity.
  - intros payload purchaser Hp Hget Hown.
    exists (mergePurchaser purchaser payload),
           (setPurchasers st (<[id := mergePurchaser purchaser payload]> (purchasersStorage st))).
    split.
    { unfold updatePurchaser, StableBTreeMap.get, StableBTreeMap.insert.
      rewrite Hid, (valid_payload_passes _ Hp), Hget, (caller_is_owner _ _ Hown).
      reflexivity. }
    split.
    { unfold getPurchaser, StableBTreeMap.get. cbn [setPurchasers purchasersStorage].
      rewrite Hid, lookup_insert_eq. reflexivity. }
    split; [intros k Hk; cbn [setPurchasers purchasersStorage];
            apply lookup_insert_ne; congruence|].
    split; [reflexivity|].
    split.
    { unfold getPurchasers. rewrite !values_length. cbn [setPurchasers purchasersStorage].
      apply map_size_insert_Some. eauto. }
    unfold updatePurchaser, StableBTreeMap.get, StableBTreeMap.insert.
    cbn [setPurchasers DataItemsStorage purchasersStorage].
    rewrite Hid, (valid_payload_passes _ Hp), lookup_insert_eq.
    cbn [mergePurchaser Purchaser.owner]. rewrite (caller_is_owner _ _ Hown).
    rewrite insert_insert_eq. reflexivity.
Qed.

(** X17.  Two purchases recorded one after the other are both kept, in
    the order of the calls: after [addPurchasedItem] with [a] and then with
    [b], the purchaser read back by [getPurchaser] has the previous
    sequence followed by [a] and [b], and the id and owner it had. *)
Theorem addPurchasedItem_twice (caller : Principal.t) (purchaserId a b : text)
    (st : State) (purchaser : Purchaser.t) :
  isValidUuid purchaserId = true ->
  isValidUuid a = true ->
  isValidUuid b = true ->
  purchasersStorage st !! purchaserId = Some purchaser ->
  Purchaser.owner purchaser = caller ->
  exists stored,
    getPurchaser purchaserId
      (snd (addPurchasedItem caller purchaserId b
              (snd (addPurchasedItem caller purchaserId a st)))) = Ok stored /\
    Purchaser.purchasedItem stored = Purchaser.purchasedItem purchaser ++ [a; b] /\
    Purchaser.id stored = Purchaser.id purchaser /\
    Purchaser.owner stored = Purchaser.owner purchaser.
Proof.
  intros Hpid Ha Hb Hget Hown.
  exists (pushPurchasedItem (pushPurchasedItem purchaser a) b).
  assert (E1 : snd (addPurchasedItem caller purchaserId a st)
               = setPurchasers st
                   (<[purchaserId := pushPurchasedItem purchaser a]> (purchasersStorage st))).
  { unfold addPurchasedItem, StableBTreeMap.get, StableBTreeMap.insert.
    rewrite Hpid, Ha, Hget, (caller_is_owner _ _ Hown). reflexivity. }
  rewrite E1.
  assert (E2 : snd (addPurchasedItem caller purchaserId b
                      (setPurchasers st
                         (<[purchaserId := pushPurchasedItem purchaser a]>
                            (purchasersStorage st))))
               = setPurchasers st
                   (<[purchaserId := pushPurchasedItem (pushPurchasedItem purchaser a) b]>
                      (purchasersStorage st))).
  { unfold addPurchasedItem, StableBTreeMap.get, StableBTreeMap.insert.
    cbn [setPurchasers purchasersStorage DataItemsStorage].
    rewrite Hpid, Hb, lookup_insert_eq.
    cbn [pushPurchasedItem Purchaser.owner negb]. rewrite (caller_is_owner _ _ Hown).
    cbn [snd]. rewrite insert_insert_eq. reflexivity. }
  rewrite E2. split; [|split; [|split; reflexivity]].
  - unfold getPurchaser, StableBTreeMap.get. cbn [setPurchasers purchasersStorage].
    rewrite Hpid, lookup_insert_eq. reflexivity.
  - cbn [pushPurchasedItem Purchaser.purchasedItem]. rewrite <- app_assoc. reflexivity.
Qed.


(** X19.  In a reachable state, once its seller has deleted a DataItem no
    listed record carries its id any more: not in [getDataItems], and so
    not in the results of [searchDataItem], [filterDataItem],
    [getInitialDataItem] or [getMoreDataItems]; and the listing is one
    record shorter. *)
Theorem deleted_item_is_gone (caller : Principal.t) (id : text) (st : State)
    (data : DataItem.t) :
  reachable st ->
  isValidUuid id = true ->
  DataItemsStorage st !! id = Some data ->
  DataItem.seller data = caller ->
  exists st',
    deleteDataItem caller id st = (Ok id, st') /\
    S (length (getDataItems st')) = length (getDataItems st) /\
    (forall d, In d (getDataItems st') -> DataItem.id d <> id) /\
    (forall query d, In d (searchDataItem query st') -> DataItem.id d <> id) /\
    (forall query d, In d (filterDataItem query st') -> DataItem.id d <> id) /\
    (forall d, In d (getInitialDataItem st') -> DataItem.id d <> id) /\
    (forall start limit d, In d (getMoreDataItems start limit st') -> DataItem.id d <> id).
Proof.
  intros Hreach Hid Hget Hown.
  destruct (keyed_by_id_reachable st Hreach) as [Hd _].
  exists (setDataItems st (delete id (DataItemsStorage st))).
  assert (Hgone : forall d,
            In d (getDataItems (setDataItems st (delete id (DataItemsStorage st)))) ->
            DataItem.id d <> id).
  { intros d Hin. unfold getDataItems in Hin. cbn [setDataItems DataItemsStorage] in Hin.
    apply values_In in Hin as (k & Hk). apply lookup_delete_Some in Hk as [Hne Hk].
    rewrite (Hd k d Hk). congruence. }
  split.
  { unfold deleteDataItem, StableBTreeMap.get, StableBTreeMap.remove.
    rewrite Hid, Hget, (caller_is_owner _ _ Hown), (Hd id data Hget). reflexivity. }
  split.
  { unfold getDataItems. rewrite !values_length. cbn [setDataItems DataItemsStorage].
    rewrite (map_size_delete_Some id (DataItemsStorage st)) by eauto.
    assert (size (DataItemsStorage st) <> 0%nat).
    { intros E. apply map_size_empty_iff in E. rewrite E, lookup_empty in Hget.
      discriminate. }
    lia. }
  split; [exact Hgone|].
  split; [intros query d Hin; apply Hgone; unfold searchDataItem in Hin;
          apply filter_In in Hin as [Hin _]; exact Hin|].
  split; [intros query d Hin; apply Hgone; unfold filterDataItem in Hin;
          apply filter_In in Hin as [Hin _]; exact Hin|].
  split.
  - intros d Hin. apply Hgone. unfold getInitialDataItem, slice in Hin.
    cbv zeta in Hin. apply list_elem_of_In in Hin.
    apply list_elem_of_In. eapply elem_of_sublist; [exact Hin|].
    etransitivity; [apply sublist_take | apply sublist_drop].
  - intros start limit d Hin. apply Hgone. unfold getMoreDataItems, slice in Hin.
    cbv zeta in Hin. apply list_elem_of_In in Hin.
    apply list_elem_of_In. eapply elem_of_sublist; [exact Hin|].
    etransitivity; [apply sublist_take | apply sublist_drop].
Qed.

(** X20.  [addDataItem] with a valid payload makes the listing one record
    longer when the generated id is not yet a key of the store; when it is
    already a key, the listing keeps its length and the record stored under
    that key is replaced by the new one. *)
Theorem addDataItem_listing_length (caller : Principal.t) (random : nat -> N)
    (payload : DataItemPayload.t) (st : State) :
  validateDataItemPayload payload = [] ->
  (DataItemsStorage st !! Uuid.v4 random = None ->
   length (getDataItems (snd (addDataItem caller random payload st)))
     = S (length (getDataItems st))) /\
  (forall old,
     DataItemsStorage st !! Uuid.v4 random = Some old ->
     length (getDataItems (snd (addDataItem caller random payload st)))
       = length (getDataItems st) /\
     DataItemsStorage (snd (addDataItem caller random payload st)) !! Uuid.v4 random
       = Some (newDataItem (Uuid.v4 random) caller payload)).
Proof.
  intros Hp.
  assert (E : snd (addDataItem caller random payload st)
              = setDataItems st
                  (<[Uuid.v4 random := newDataItem (Uuid.v4 random) caller payload]>
                     (DataItemsStorage st))).
  { unfold addDataItem, StableBTreeMap.insert.
    rewrite (valid_payload_passes _ Hp). reflexivity. }
  rewrite E. unfold getDataItems. rewrite !values_length.
  cbn [setDataItems DataItemsStorage]. split.
  - intros Hnone. apply map_size_insert_None, Hnone.
  - intros old Hold. split; [apply map_size_insert_Some; eauto | apply lookup_insert_eq].
Qed.

End Composition.

(** ** Further concrete runs *)
Module MoreRuns.
Import JS Sample.

#[local] Existing Instance AsciiCase.

Ltac run := vm_compute; reflexivity.
Ltac differ := let E := fresh "E" in intros E; vm_compute in E; discriminate E.

Lemma addDataItem_then_getDataItem_run :
  exists data st',
    addDataItem alice draws datasetA market = (Ok data, st') /\
    getDataItem (DataItem.id data) st' = Ok data /\
    In data (getDataItems st').
Proof. apply (addDataItem_then_getDataItem alice draws datasetA market). run. Defined.

Lemma addPurchaser_creates_record_run :
  exists purchaser st',
    addPurchaser bob draws buyer market = (Ok purchaser, st') /\
    Purchaser.owner purchaser = bob /\
    Purchaser.purchasedItem purchaser = [] /\
    getPurchaser (Purchaser.id purchaser) st' = Ok purchaser.
Proof.
  destruct (addPurchaser_creates_record bob draws buyer market)
    as (p & st' & E & _ & _ & Ho & _ & _ & _ & Hi & _ & _ & Hg); [run|].
  exists p, st'. exact (conj E (conj Ho (conj Hi Hg))).
Defined.

Lemma invalid_payload_reported_run :
  exists m,
    addDataItem alice draws blankTitle market = (Err (InvalidPayload m), market) /\
    occursIn (lit "title=' ' cannot be empty.") m.
Proof.
  destruct (invalid_payload_reported alice draws market) as (_ & _ & _ & _ & Htitle).
  apply (Htitle blankTitle). run.
Defined.

Lemma malformed_id_rejected_first_run :
  updateDataItem alice notAUuid blankTitle market =
    (Err (InvalidPayload (badIdMessage "Id" notAUuid)), market) /\
  deleteDataItem alice notAUuid market =
    (Err (InvalidPayload (badIdMessage "Id" notAUuid)), market) /\
  addPurchasedItem alice id3 notAUuid market =
    (Err (InvalidPayload (badIdMessage "itemId" notAUuid)), market).
Proof.
  destruct (malformed_id_rejected_first alice notAUuid market)
    as (Hu & _ & Hd & _ & _ & Hitem & _); [run|].
  refine (conj (Hu blankTitle) (conj Hd (Hitem id3 _))). run.
Defined.

Lemma absent_id_NotFound_run :
  updateDataItem bob id5 datasetA market = (Err (NotFound (lit "Data not found")), market) /\
  addPurchasedItem bob id5 id1 market =
    (Err (NotFound (lit "Purchaser not found")), market) /\
  getPurchaser id5 market = Err (lit "Purchaser not found").
Proof.
  destruct (absent_id_NotFound bob id5 market) as (Hd & Hp); [run|].
  destruct Hd as (Hu & _); [run|].
  destruct Hp as (_ & _ & Ha & Hg); [run|].
  refine (conj (Hu datasetA _) (conj (Ha id1 _) Hg)); run.
Defined.

Lemma delete_removes_record_run :
  exists st',
    deleteDataItem alice id1 market = (Ok id1, st') /\
    getDataItem id1 st' = Err (lit "Data Item not found") /\
    deleteDataItem alice id1 st' = (Err (NotFound (dataItemNotFoundOnDelete id1)), st').
Proof.
  destruct (delete_removes_record alice id1 market) as (Hd & _); [run|].
  destruct (Hd item1) as (st' & E & _ & _ & _ & Hg & Hagain); [run | run |].
  exists st'. exact (conj E (conj Hg Hagain)).
Defined.

Lemma error_leaves_state_run :
  snd (deleteDataItem bob id1 market) = market /\
  snd (addDataItem alice draws blankTitle market) = market.
Proof.
  destruct (error_leaves_state bob market) as (_ & _ & _ & _ & Hdel & _).
  destruct (error_leaves_state alice market) as (Hadd & _).
  split.
  - apply (Hdel id1 (AuthenticationFailed (lit "Caller is not the seller of the item."))).
    run.
  - apply (Hadd draws blankTitle
             (InvalidPayload (invalidPayloadMessage (validateDataItemPayload blankTitle)))).
    run.
Defined.

Lemma only_owner_changes_record_run :
  DataItem.seller item1 = alice \/
  exists random payload,
    CallDeleteDataItem id1 = CallAddDataItem random payload /\ Uuid.v4 random = id1.
Proof.
  destruct (only_owner_changes_record alice (CallDeleteDataItem id1) market id1)
    as (Hd & _).
  apply (Hd item1); [run | differ].
Defined.

Lemma surviving_record_keeps_owner_run :
  Purchaser.id (pushPurchasedItem carol id5) = Purchaser.id carol /\
  Purchaser.owner (pushPurchasedItem carol id5) = Purchaser.owner carol /\
  Purchaser.purchasedItem carol `prefix_of`
    Purchaser.purchasedItem (pushPurchasedItem carol id5).
Proof.
  destruct (surviving_record_keeps_owner alice (CallAddPurchasedItem id3 id5) market id3)
    as (_ & Hp).
  apply (Hp carol (pushPurchasedItem carol id5)); [run | run |].
  intros random payload E. discriminate E.
Defined.

Lemma listings_match_stores_run :
  reachable firstListing /\
  NoDup (List.map DataItem.id (getDataItems firstListing)) /\
  length (getDataItems firstListing) = size (DataItemsStorage firstListing).
Proof.
  assert (Hr : reachable firstListing) by (apply reachable_step, reachable_init).
  destruct (listings_match_stores firstListing) as (_ & _ & Hlen & _ & Hreach).
  destruct (Hreach Hr) as (Hnd & _).
  exact (conj Hr (conj Hnd Hlen)).
Defined.

Lemma getInitialDataItem_first_page_run :
  getInitialDataItem market = getMoreDataItems 0 2 market /\
  List.map DataItem.id (getInitialDataItem market) = [id3; id1].
Proof.
  destruct (getInitialDataItem_first_page market) as (E & _ & _ & Hpage).
  split; [apply Hpage; run|].
  rewrite E. run.
Defined.

Lemma pages_concatenate_run :
  getMoreDataItems 1 1 market ++ getMoreDataItems 2 2 market
    = getMoreDataItems 1 3 market /\
  getMoreDataItems 0 9 market = getDataItems market.
Proof.
  destruct (pages_concatenate 1 1 2 market) as (Hcat & Hall); [run|].
  split; [exact Hcat|].
  apply Hall. vm_compute. lia.
Defined.

Lemma empty_query_matches_all_run :
  searchDataItem [] market = getDataItems market /\
  filterDataItem [] market = getDataItems market.
Proof. apply (empty_query_matches_all market). reflexivity. Defined.

Lemma valid_id_shape_run :
  length id2 = 36%nat /\ id2 !! 8%nat = Some 45.
Proof.
  destruct (valid_id_shape id2) as (Hlen & Hat); [run|].
  split; [exact Hlen|]. reflexivity.
Defined.

Lemma update_then_get_run :
  exists updated st',
    updateDataItem alice id1 datasetB market = (Ok updated, st') /\
    getDataItem id1 st' = Ok updated /\
    updateDataItem alice id1 datasetB st' = (Ok updated, st').
Proof.
  destruct (update_then_get alice id1 market) as (Hd & _); [run|].
  destruct (Hd datasetB item1) as (u & st' & E & Hg & _ & _ & _ & Hagain);
    [run | run | run |].
  exists u, st'. exact (conj E (conj Hg Hagain)).
Defined.

Lemma addPurchasedItem_twice_run :
  exists stored,
    getPurchaser id3
      (snd (addPurchasedItem alice id3 id1
              (snd (addPurchasedItem alice id3 id5 market)))) = Ok stored /\
    Purchaser.purchasedItem stored = [id1; id5; id1].
Proof.
  destruct (addPurchasedItem_twice alice id3 id5 id1 market carol)
    as (stored & Hg & Hitems & _); [run | run | run | run | run |].
  exists stored. exact (conj Hg Hitems).
Defined.


Lemma deleted_item_is_gone_run :
  exists st',
    deleteDataItem alice (Uuid.v4 draws) firstListing = (Ok (Uuid.v4 draws), st') /\
    S (length (getDataItems st')) = length (getDataItems firstListing).
Proof.
  destruct (deleted_item_is_gone alice (Uuid.v4 draws) firstListing
              (newDataItem (Uuid.v4 draws) alice datasetA))
    as (st' & E & Hlen & _); [apply reachable_step, reachable_init | run | run | run |].
  exists st'. exact (conj E Hlen).
Defined.

Lemma addDataItem_listing_length_run :
  length (getDataItems (snd (addDataItem alice draws datasetA initState))) = 1%nat /\
  length (getDataItems (snd (addDataItem bob draws datasetB firstListing)))
    = length (getDataItems firstListing).
Proof.
  destruct (addDataItem_listing_length alice draws datasetA initState) as (Hnew & _); [run|].
  destruct (addDataItem_listing_length bob draws datasetB firstListing) as (_ & Hold); [run|].
  split.
  - apply Hnew. run.
  - apply (Hold (newDataItem (Uuid.v4 draws) alice datasetA)). run.
Defined.

End MoreRuns.
